(** * Structured melody RNN graph: a shallow embedding and its properties

    Source: magenta/models/structured_melody_rnn/structured_melody_rnn_graph.py

    The Python module builds a TensorFlow graph.  The embedding gives the
    denotation of that graph: every tensor-valued expression of the source is
    a function of the tensors it is built from.  A dense tensor is a shape
    together with an indexing function; Python exceptions are an error monad;
    float32 values are elements of an abstract scalar type whose operations
    are the ones the source calls, instantiated with the real numbers where a
    statement needs the laws of a field. *)

From Stdlib Require Import String.
From Stdlib Require Import List ZArith Lia Bool Arith.
From Stdlib Require Import Reals Lra.
Import ListNotations.

Set Implicit Arguments.

(** ** Python exceptions *)

(** [ValueError] is the exception the module itself raises (the [raise] of
    [build_graph]).  [TFError op] stands for any exception that comes out of
    the TensorFlow op [op] when its arguments are rejected.  [NameError] is
    what Python raises for a local variable that was never bound. *)
Inductive exn : Type :=
| ValueError (msg : string)
| TFError (op : string)
| NameError (name : string).

Inductive result (A : Type) : Type :=
| Ok (a : A)
| Raise (e : exn).

Arguments Ok {A} a.
Arguments Raise {A} e.

Definition bind {A B : Type} (r : result A) (k : A -> result B) : result B :=
  match r with
  | Ok a => k a
  | Raise e => Raise e
  end.

Notation "x <- e ;; k" := (bind e (fun x => k))
  (at level 61, e at next level, right associativity).

Notation "' pat <- e ;; k" := (bind e (fun x => match x with pat => k end))
  (at level 61, pat pattern, e at next level, right associativity).

Fixpoint foldM {A B : Type} (f : B -> A -> result B) (l : list A) (b : B)
  : result B :=
  match l with
  | [] => Ok b
  | x :: l' => b' <- f b x ;; foldM f l' b'
  end.

Fixpoint mapM {A B : Type} (f : A -> result B) (l : list A) : result (list B) :=
  match l with
  | [] => Ok []
  | x :: l' => y <- f x ;; ys <- mapM f l' ;; Ok (y :: ys)
  end.

(** ** Scalars: the float operations the source uses *)

Class Scalar (F : Type) : Type := {
  fzero : F;
  fone : F;
  fadd : F -> F -> F;
  fsub : F -> F -> F;
  fmul : F -> F -> F;
  fdiv : F -> F -> F;
  fexp : F -> F;
  flog : F -> F;
  ffloor : F -> F;
  fltb : F -> F -> bool
}.

Definition Rltb (x y : R) : bool := if Rlt_dec x y then true else false.

#[export] Instance Scalar_R : Scalar R := {
  fzero := 0%R;
  fone := 1%R;
  fadd := Rplus;
  fsub := Rminus;
  fmul := Rmult;
  fdiv := Rdiv;
  fexp := exp;
  flog := ln;
  ffloor := fun x => IZR (Int_part x);
  fltb := Rltb
}.

(** ** Dense tensors *)

Record tensor (A : Type) : Type := Tensor {
  dims : list nat;
  get : list nat -> A
}.

Arguments Tensor {A} dims get.

Definition rank {A} (t : tensor A) : nat := length (dims t).

Definition numel (sh : list nat) : nat := fold_right Nat.mul 1 sh.

(** An index is within a shape. *)
Fixpoint in_range (idx sh : list nat) : Prop :=
  match idx, sh with
  | [], [] => True
  | i :: idx', d :: sh' => i < d /\ in_range idx' sh'
  | _, _ => False
  end.

(** Row-major offset of an index, and its inverse. *)
Fixpoint ravel (sh idx : list nat) : nat :=
  match sh, idx with
  | _ :: sh', i :: idx' => i * numel sh' + ravel sh' idx'
  | _, _ => 0
  end.

Fixpoint unravel (sh : list nat) (n : nat) : list nat :=
  match sh with
  | [] => []
  | _ :: sh' => (n / numel sh') :: unravel sh' (n mod numel sh')
  end.

(** A rank-0 tensor and its value. *)
Definition scalar_tensor {A} (a : A) : tensor A := Tensor [] (fun _ => a).
Definition item {A} (t : tensor A) : A := get t [].

(** Rows of a tensor along axis 0, and back. *)
Definition unstack {A} (t : tensor A) : list (tensor A) :=
  map (fun i => Tensor (tl (dims t)) (fun idx => get t (i :: idx)))
      (seq 0 (hd 0 (dims t))).

Definition shape_eqb (s1 s2 : list nat) : bool :=
  if list_eq_dec Nat.eq_dec s1 s2 then true else false.

Definition stack {A} (t0 : tensor A) (ts : list (tensor A)) : result (tensor A) :=
  if forallb (fun t => shape_eqb (dims t) (dims t0)) ts then
    Ok (Tensor (S (length ts) :: dims t0)
               (fun idx => match idx with
                           | [] => get t0 []
                           | i :: idx' => get (nth i (t0 :: ts) t0) idx'
                           end))
  else Raise (TFError "Pack").

(** A recurrent cell ([tf.contrib.rnn.RNNCell]): its state is the flattened
    list of its state tensors.  The first argument of [call] is the index of
    the time step, which selects the random draws of that step. *)
Record RNNCell (F : Type) : Type := {
  state_len : nat;
  output_size : nat;
  zero_state : Z -> list (tensor F);
  call : nat -> tensor F -> list (tensor F) -> result (tensor F * list (tensor F))
}.

(** Python's treatment of a slice bound [k] on an axis of length [d]: a
    negative bound counts from the end, and the result is clamped to [0, d]. *)
Definition clamp_index (d : nat) (k : Z) : nat :=
  Z.to_nat (Z.max 0 (Z.min (Z.of_nat d) (if (k <? 0)%Z then (k + Z.of_nat d)%Z else k))).

Definition slice_begin (d : nat) (s : option Z * option Z) : nat :=
  match fst s with None => 0 | Some k => clamp_index d k end.

Definition slice_end (d : nat) (s : option Z * option Z) : nat :=
  match snd s with None => d | Some k => clamp_index d k end.

Fixpoint slice_dims (sh : list nat) (sl : list (option Z * option Z)) : list nat :=
  match sh, sl with
  | d :: sh', s :: sl' => (slice_end d s - slice_begin d s) :: slice_dims sh' sl'
  | _, _ => sh
  end.

Fixpoint slice_index (sh : list nat) (sl : list (option Z * option Z))
         (idx : list nat) : list nat :=
  match sh, sl, idx with
  | d :: sh', s :: sl', i :: idx' => (slice_begin d s + i) :: slice_index sh' sl' idx'
  | _, _, _ => idx
  end.

(** [t[b0:e0, b1:e1, ...]] with unit strides; [None] is an omitted bound. *)
Definition getitem {A} (t : tensor A) (sl : list (option Z * option Z)) : tensor A :=
  Tensor (slice_dims (dims t) sl) (fun idx => get t (slice_index (dims t) sl idx)).

Definition py_index {A} (l : list A) (k : nat) (d : A) : A := nth k l d.

(** A possibly negative axis, resolved against a rank. *)
Definition norm_axis (r : nat) (axis : Z) : option nat :=
  let a := if (axis <? 0)%Z then (axis + Z.of_nat r)%Z else axis in
  if ((0 <=? a) && (a <? Z.of_nat r))%Z then Some (Z.to_nat a) else None.

Fixpoint replace_nth {A} (n : nat) (l : list A) (a : A) : list A :=
  match l, n with
  | [], _ => []
  | _ :: l', 0 => a :: l'
  | x :: l', S n' => x :: replace_nth n' l' a
  end.

Fixpoint find_index (a : nat) (l : list nat) : nat :=
  match l with
  | [] => 0
  | x :: l' => if Nat.eqb x a then 0 else S (find_index a l')
  end.

(** ** The TensorFlow operations the module calls

    Each definition gives the value of the op on the tensors it is applied
    to, following the TensorFlow API documentation; an op that rejects its
    arguments raises [TFError]. *)

Module tf.

Definition shape {A} (t : tensor A) : list Z := map Z.of_nat (dims t).

Definition range (start limit : Z) : tensor Z :=
  Tensor [Z.to_nat (limit - start)] (fun idx => (start + Z.of_nat (hd 0%nat idx))%Z).

Definition transpose {A} (t : tensor A) (perm : list nat) : tensor A :=
  Tensor (map (fun p => nth p (dims t) 0) perm)
         (fun idx => get t (map (fun a => nth (find_index a perm) idx 0)
                                (seq 0 (length perm)))).

(** [tf.concat([a, b], axis)]. *)
Definition concat {A} (a b : tensor A) (axis : Z) : result (tensor A) :=
  match norm_axis (rank a) axis with
  | Some ax =>
      if shape_eqb (replace_nth ax (dims a) 0) (replace_nth ax (dims b) 0) then
        let da := nth ax (dims a) 0 in
        Ok (Tensor (replace_nth ax (dims a) (da + nth ax (dims b) 0))
                   (fun idx => let i := nth ax idx 0 in
                               if i <? da then get a idx
                               else get b (replace_nth ax idx (i - da))))
      else Raise (TFError "ConcatV2")
  | None => Raise (TFError "ConcatV2")
  end.

Definition expand_dims {A} (t : tensor A) (axis : Z) : result (tensor A) :=
  match norm_axis (S (rank t)) axis with
  | Some ax => Ok (Tensor (firstn ax (dims t) ++ 1 :: skipn ax (dims t))
                          (fun idx => get t (firstn ax idx ++ skipn (S ax) idx)))
  | None => Raise (TFError "ExpandDims")
  end.

Definition squeeze {A} (t : tensor A) (axis : Z) : result (tensor A) :=
  match norm_axis (rank t) axis with
  | Some ax =>
      if nth ax (dims t) 0 =? 1 then
        Ok (Tensor (firstn ax (dims t) ++ skipn (S ax) (dims t))
                   (fun idx => get t (firstn ax idx ++ 0 :: skipn ax idx)))
      else Raise (TFError "Squeeze")
  | None => Raise (TFError "Squeeze")
  end.

(** The shape a [tf.reshape] to [new_shape] produces for [n] elements; at
    most one entry of [new_shape] is [-1] and is inferred. *)
Definition infer_shape (n : nat) (new_shape : list Z) : option (list nat) :=
  let known := fold_right Z.mul 1%Z (filter (fun d => negb (d =? -1)%Z) new_shape) in
  if existsb (fun d => (d <? -1)%Z) new_shape then None
  else
    match count_occ Z.eq_dec new_shape (-1)%Z with
    | 0 => if (known =? Z.of_nat n)%Z then Some (map Z.to_nat new_shape) else None
    | 1 =>
        if (known =? 0)%Z then None
        else if (Z.of_nat n mod known =? 0)%Z then
          Some (map (fun d => if (d =? -1)%Z then Z.to_nat (Z.of_nat n / known)
                              else Z.to_nat d) new_shape)
        else None
    | _ => None
    end.

Definition reshape {A} (t : tensor A) (new_shape : list Z) : result (tensor A) :=
  match infer_shape (numel (dims t)) new_shape with
  | Some sh => Ok (Tensor sh (fun idx => get t (unravel (dims t) (ravel sh idx))))
  | None => Raise (TFError "Reshape")
  end.

(** [tf.extract_image_patches(images, ksizes, strides=[1,1,1,1],
    rates=[1,1,1,1], padding='VALID')] on a [batch, rows, cols, depth] image:
    the patch whose top-left corner is [(i, j)], flattened row by row. *)
Definition extract_image_patches {A} (images : tensor A) (ksizes : list Z)
  : result (tensor A) :=
  match dims images, ksizes with
  | [b; r; c; d], [1; kr; kc; 1]%Z =>
      if ((kr <? 1) || (kc <? 1))%Z then Raise (TFError "ExtractImagePatches")
      else
        let kr := Z.to_nat kr in
        let kc := Z.to_nat kc in
        if (r + 1 <? kr) || (c + 1 <? kc) then Raise (TFError "ExtractImagePatches")
        else
          Ok (Tensor [b; r + 1 - kr; c + 1 - kc; kr * kc * d]
                (fun idx =>
                   match idx with
                   | [bi; i; j; m] =>
                       get images [bi; i + m / (kc * d); j + (m / d) mod kc; m mod d]
                   | _ => get images idx
                   end))
  | _, _ => Raise (TFError "ExtractImagePatches")
  end.

(** [tf.map_fn(fn, (xs, ys))]: [fn] applied to each pair of rows of [xs] and
    [ys] along axis 0, and the results stacked.  With no rows there is no
    element shape to stack from, and the stacking op fails. *)
Definition map_fn {A B C} (fn : tensor A * tensor B -> result (tensor C))
           (elems : tensor A * tensor B) : result (tensor C) :=
  let (xs, ys) := elems in
  if hd 0 (dims xs) =? hd 0 (dims ys) then
    rs <- mapM fn (combine (unstack xs) (unstack ys)) ;;
    match rs with
    | [] => Raise (TFError "TensorArrayGather")
    | r :: rs' => stack r rs'
    end
  else Raise (TFError "map_fn").

Definition equal (a b : tensor Z) : tensor bool :=
  Tensor (dims a) (fun idx => (get a idx =? get b idx)%Z).

Definition not_equal (a b : tensor Z) : tensor bool :=
  Tensor (dims a) (fun idx => negb (get a idx =? get b idx)%Z).

Section Float.
Context {F : Type} {SF : Scalar F}.

Definition fsum (n : nat) (f : nat -> F) : F :=
  fold_right fadd fzero (map f (seq 0 n)).

Definition zeros (sh : list Z) : result (tensor F) :=
  if existsb (fun d => (d <? 0)%Z) sh then Raise (TFError "Fill")
  else Ok (Tensor (map Z.to_nat sh) (fun _ => fzero)).

Definition zeros_like (t : tensor F) : tensor F :=
  Tensor (dims t) (fun _ => fzero).

Definition fill (sh : list Z) (v : F) : result (tensor F) :=
  if existsb (fun d => (d <? 0)%Z) sh then Raise (TFError "Fill")
  else Ok (Tensor (map Z.to_nat sh) (fun _ => v)).

Definition to_float (t : tensor bool) : tensor F :=
  Tensor (dims t) (fun idx => if get t idx then fone else fzero).

Definition one_hot (indices : tensor Z) (depth : Z) : result (tensor F) :=
  if (depth <? 0)%Z then Raise (TFError "OneHot")
  else Ok (Tensor (dims indices ++ [Z.to_nat depth])
                  (fun idx => if (get indices (removelast idx) =? Z.of_nat (last idx 0%nat))%Z
                              then fone else fzero)).

(** Batched matrix product of rank-3 tensors. *)
Definition matmul (a b : tensor F) (transpose_b : bool) : result (tensor F) :=
  match dims a, dims b with
  | [ba; n; m], [bb; p; q] =>
      if (ba =? bb) && (m =? (if transpose_b then q else p)) then
        Ok (Tensor [ba; n; if transpose_b then p else q]
                   (fun idx =>
                      match idx with
                      | [bi; i; j] =>
                          fsum m (fun k => fmul (get a [bi; i; k])
                                     (get b (if transpose_b then [bi; j; k]
                                             else [bi; k; j])))
                      | _ => fzero
                      end))
      else Raise (TFError "BatchMatMul")
  | _, _ => Raise (TFError "BatchMatMul")
  end.

Definition exp (t : tensor F) : tensor F :=
  Tensor (dims t) (fun idx => fexp (get t idx)).

Definition reduce_sum (t : tensor F) : tensor F :=
  scalar_tensor (fsum (numel (dims t)) (fun n => get t (unravel (dims t) n))).

Fixpoint of_nat (n : nat) : F :=
  match n with
  | 0 => fzero
  | S n' => fadd (of_nat n') fone
  end.

Definition reduce_mean (t : tensor F) : tensor F :=
  scalar_tensor (fdiv (item (reduce_sum t)) (of_nat (numel (dims t)))).

(** Element-wise operations; the second argument is broadcast along the
    leading axes of the first. *)
Definition broadcast2 (op : string) (f : F -> F -> F) (a b : tensor F)
  : result (tensor F) :=
  let lead := rank a - rank b in
  if shape_eqb (skipn lead (dims a)) (dims b) then
    Ok (Tensor (dims a) (fun idx => f (get a idx) (get b (skipn lead idx))))
  else Raise (TFError op).

Definition multiply : tensor F -> tensor F -> result (tensor F) :=
  broadcast2 "Mul" fmul.

Definition div : tensor F -> tensor F -> result (tensor F) :=
  broadcast2 "RealDiv" fdiv.

(** [tf.argmax(t, axis=1)] on a [rows, classes] tensor: the first index of
    the largest entry of each row. *)
Definition argmax (t : tensor F) : tensor Z :=
  Tensor (removelast (dims t))
         (fun idx =>
            Z.of_nat (fold_left
                        (fun best k => if fltb (get t (idx ++ [best])) (get t (idx ++ [k]))
                                       then k else best)
                        (seq 0 (last (dims t) 0)) 0)).

End Float.

(** [tf.placeholder(dtype, shape)] fed with [fed]: the fed value has to fit
    the declared shape, where [None] is an unknown dimension. *)
Definition placeholder {A} (fed : tensor A) (declared : list (option Z))
  : result (tensor A) :=
  if (length (dims fed) =? length declared)
     && forallb (fun dz : nat * option Z =>
                   match snd dz with
                   | None => true
                   | Some z => (Z.of_nat (fst dz) =? z)%Z
                   end) (combine (dims fed) declared)
  then Ok fed else Raise (TFError "Placeholder").

Module nn.
Section Float.
Context {F : Type} {SF : Scalar F}.

(** [tf.nn.softmax] along the last axis. *)
Definition softmax (logits : tensor F) : tensor F :=
  Tensor (dims logits)
         (fun idx =>
            fdiv (fexp (get logits idx))
                 (fsum (last (dims logits) 0)
                       (fun k => fexp (get logits (removelast idx ++ [k]))))).

Definition relu (x : F) : F := if fltb fzero x then x else fzero.

(** [tf.nn.sparse_softmax_cross_entropy_with_logits(labels, logits)] on
    [rows] labels and [rows, classes] logits. *)
Definition sparse_softmax_cross_entropy_with_logits (labels : tensor Z)
           (logits : tensor F) : result (tensor F) :=
  if shape_eqb (dims labels) (removelast (dims logits)) then
    Ok (Tensor (dims labels)
               (fun idx =>
                  fsub (flog (fsum (last (dims logits) 0)
                                   (fun k => fexp (get logits (idx ++ [k])))))
                       (get logits (idx ++ [Z.to_nat (get labels idx)]))))
  else Raise (TFError "SparseSoftmaxCrossEntropyWithLogits").

(** [tf.nn.dropout(x, keep_prob)] with the uniform draws [u]. *)
Definition dropout (x : tensor F) (keep_prob : F) (u : list nat -> F) : tensor F :=
  Tensor (dims x)
         (fun idx => fmul (fdiv (get x idx) keep_prob)
                          (ffloor (fadd keep_prob (u idx)))).

(** Rows of [a] where [cond] holds of the batch index, rows of [b] elsewhere. *)
Definition where_rows (cond : nat -> bool) (a b : tensor F) : tensor F :=
  Tensor (dims b) (fun idx => if cond (hd 0 idx) then get a idx else get b idx).

(** One time step of [tf.nn.dynamic_rnn]: past the length of a sequence the
    output is zero and the state is carried over. *)
Definition rnn_step (cell : RNNCell F) (inputs : tensor F)
           (sequence_length : option (tensor Z))
           (acc : list (tensor F) * list (tensor F)) (t : nat)
  : result (list (tensor F) * list (tensor F)) :=
  let (outs, state) := acc in
  let x_t := Tensor [nth 0 (dims inputs) 0; nth 2 (dims inputs) 0]
                    (fun idx => get inputs [nth 0 idx 0; t; nth 1 idx 0]) in
  '(out, new_state) <- call cell t x_t state ;;
  match sequence_length with
  | None => Ok (outs ++ [out], new_state)
  | Some len =>
      let finished := fun b => (get len [b] <=? Z.of_nat t)%Z in
      Ok (outs ++ [where_rows finished (tf.zeros_like out) out],
          map (fun so : tensor F * tensor F => where_rows finished (fst so) (snd so))
              (combine state new_state))
  end.

Definition dynamic_rnn (cell : RNNCell F) (inputs : tensor F)
           (sequence_length : option (tensor Z)) (initial_state : list (tensor F))
  : result (tensor F * list (tensor F)) :=
  match dims inputs with
  | [b; T; _] =>
      '(outs, final_state) <-
        foldM (rnn_step cell inputs sequence_length) (seq 0 T) ([], initial_state) ;;
      Ok (Tensor [b; T; output_size cell]
                 (fun idx => match idx with
                             | [bi; t; u] =>
                                 match nth_error outs t with
                                 | Some o => get o [bi; u]
                                 | None => fzero
                                 end
                             | _ => fzero
                             end),
          final_state)
  | _ => Raise (TFError "dynamic_rnn")
  end.

End Float.
End nn.

Module contrib.

Module layers.
Section Float.
Context {F : Type} {SF : Scalar F}.

(** [tf.contrib.layers.conv2d(inputs, num_outputs, kernel_size,
    padding='VALID', activation_fn=...)] with unit strides on a
    [batch, height, width, channels] input; [weights] and [biases] are the
    values of the variables of the layer. *)
Definition conv2d (weights biases : list nat -> F) (inputs : tensor F)
           (num_outputs : Z) (kernel_size : list Z) (activation_fn : F -> F)
  : result (tensor F) :=
  match dims inputs, kernel_size with
  | [b; h; w; c], [kh; kw] =>
      if ((kh <? 1) || (kw <? 1) || (num_outputs <? 1))%Z
      then Raise (TFError "Conv2D")
      else
        let kh := Z.to_nat kh in
        let kw := Z.to_nat kw in
        if (h + 1 <? kh) || (w + 1 <? kw) then Raise (TFError "Conv2D")
        else
          Ok (Tensor [b; h + 1 - kh; w + 1 - kw; Z.to_nat num_outputs]
                (fun idx =>
                   match idx with
                   | [bi; i; j; o] =>
                       activation_fn
                         (fadd
                            (fsum kh (fun di =>
                             fsum kw (fun dj =>
                             fsum c (fun ci =>
                               fmul (get inputs [bi; i + di; j + dj; ci])
                                    (weights [di; dj; ci; o])))))
                            (biases [o]))
                   | _ => fzero
                   end))
  | _, _ => Raise (TFError "Conv2D")
  end.

(** [tf.contrib.layers.linear(inputs, num_outputs)] on a [rows, features]
    input. *)
Definition linear (weights biases : list nat -> F) (inputs : tensor F)
           (num_outputs : Z) : result (tensor F) :=
  match dims inputs with
  | [n; d] =>
      if (num_outputs <? 1)%Z then Raise (TFError "MatMul")
      else
        Ok (Tensor [n; Z.to_nat num_outputs]
              (fun idx =>
                 match idx with
                 | [i; o] =>
                     fadd (fsum d (fun k => fmul (get inputs [i; k]) (weights [k; o])))
                          (biases [o])
                 | _ => fzero
                 end))
  | _ => Raise (TFError "MatMul")
  end.

End Float.
End layers.

Module rnn.
Section Float.
Context {F : Type} {SF : Scalar F}.

(** [DropoutWrapper(cell, output_keep_prob=...)]: dropout is applied to the
    output only when the keep probability is below 1; [u t] are the uniform
    draws of time step [t]. *)
Definition DropoutWrapper (cell : RNNCell F) (output_keep_prob : F)
           (u : nat -> list nat -> F) : RNNCell F :=
  {| state_len := state_len cell;
     output_size := output_size cell;
     zero_state := zero_state cell;
     call :=
       if fltb output_keep_prob fone then
         fun t x state =>
           '(out, new_state) <- call cell t x state ;;
           Ok (nn.dropout out output_keep_prob (u t), new_state)
       else
         fun t x state =>
           '(out, new_state) <- call cell t x state ;;
           Ok (out, new_state) |}.

Fixpoint multi_call (cells : list (RNNCell F)) (t : nat) (x : tensor F)
         (state : list (tensor F)) : result (tensor F * list (tensor F)) :=
  match cells with
  | [] => Ok (x, [])
  | cell :: cells' =>
      '(out, s1) <- call cell t x (firstn (state_len cell) state) ;;
      '(out', s2) <- multi_call cells' t out (skipn (state_len cell) state) ;;
      Ok (out', s1 ++ s2)
  end.

Definition MultiRNNCell (cells : list (RNNCell F)) : result (RNNCell F) :=
  match cells with
  | [] => Raise (TFError "MultiRNNCell")
  | c0 :: _ =>
      Ok {| state_len := list_sum (map (@state_len F) cells);
            output_size := output_size (last cells c0);
            zero_state := fun b => flat_map (fun c => zero_state c b) cells;
            call := multi_call cells |}
  end.

End Float.
End rnn.

End contrib.

End tf.

(** ** The module *)

(** [config.encoder_decoder]. *)
Record EncoderDecoder : Type := {
  input_size : Z;
  num_classes : Z;
  default_event_label : Z
}.

(** What [build_graph] does to the process before the graph is populated. *)
Inductive event : Type :=
| LoggingInfo (msg : string)
| GraphCreated.

Definition py_in (x : string) (l : list string) : bool :=
  existsb (String.eqb x) l.

Section Graph.
Context {F : Type} {SF : Scalar F}.

(** [config.hparams]; [attn_length] is [None] when the attribute is absent. *)
Record HParams : Type := {
  batch_size : Z;
  window_size : Z;
  encoding_size : Z;
  rnn_layer_sizes : list Z;
  dropout_keep_prob : F;
  attn_length : option Z;
  learning_rate : F;
  clip_norm : F
}.

Record Config : Type := {
  hparams : HParams;
  encoder_decoder : EncoderDecoder
}.

(** What the graph is run against: the library cells, the two functions of
    [magenta.common] (which are not part of this file), the values of the
    trainable variables by name, and the uniform draws of the dropout ops
    (by layer, time step and position). *)
Record Runtime : Type := {
  BasicLSTMCell : Z -> RNNCell F;
  AttentionCellWrapper : RNNCell F -> Z -> RNNCell F;
  get_padded_batch :
    option (list string) -> Z -> Z -> bool -> result (tensor F * tensor Z * tensor Z);
  flatten_maybe_padded_sequences :
    forall A : Type, tensor A -> option (tensor Z) -> result (tensor A);
  variables : string -> list nat -> F;
  random_uniform : nat -> nat -> list nat -> F
}.

(** The values fed to the placeholders of generate mode; a state fed for the
    tensors of the ['initial_state'] collection replaces the zero state. *)
Record Feeds : Type := {
  fed_inputs : tensor F;
  fed_input_buffer : tensor F;
  fed_labels : tensor Z;
  fed_past_encodings : tensor F;
  fed_temperature : tensor F;
  fed_initial_state : option (list (tensor F))
}.

Variable rt : Runtime.

(** Lines 28-58. *)
Definition make_rnn_cell (rnn_layer_sizes : list Z) (dropout_keep_prob : F)
           (attn_length : Z) (base_cell : Z -> RNNCell F) : result (RNNCell F) :=
  let cells :=
    fold_left
      (fun cells num_units =>
         let cell := base_cell num_units in
         let cell :=
           if negb (attn_length =? 0)%Z && (length cells =? 0)
           then AttentionCellWrapper rt cell attn_length
           else cell in
         let cell :=
           tf.contrib.rnn.DropoutWrapper cell dropout_keep_prob
             (random_uniform rt (length cells)) in
         cells ++ [cell])
      rnn_layer_sizes [] in
  tf.contrib.rnn.MultiRNNCell cells.

(** Lines 61-81. *)
Definition extract_input_windows (inputs : tensor F)
           (batch_size input_size window_size : Z) : result (tensor F) :=
  expanded <- tf.expand_dims inputs (-1) ;;
  input_windows <-
    tf.extract_image_patches expanded [1; window_size; input_size; 1]%Z ;;
  tf.reshape input_windows [batch_size; -1; input_size; window_size]%Z.

(** Lines 84-110. *)
Definition encode_input_windows (input_windows : tensor F)
           (batch_size input_size window_size encoding_size : Z)
  : result (tensor F) :=
  input_windows_flat <-
    tf.reshape input_windows [batch_size; -1; input_size * window_size; 1]%Z ;;
  encodings <-
    tf.contrib.layers.conv2d (variables rt "Conv/weights")
      (variables rt "Conv/biases") input_windows_flat encoding_size
      [1; input_size * window_size]%Z tf.nn.relu ;;
  tf.squeeze encodings 2.

(** Lines 139-142: the function mapped over the query steps. *)
Definition similarity_to_attention (enumerated_similarity : tensor Z * tensor F)
  : result (tensor F) :=
  let (step, sim) := enumerated_similarity in
  tf.concat
    (tf.nn.softmax (getitem sim [(None, None); (None, Some (item step))]))
    (tf.zeros_like (getitem sim [(None, None); (Some (item step), None)]))
    (-1).

(** Lines 133-147: the attention weights, before they are multiplied with
    the one-hot labels. *)
Definition attention_weights (self_similarity : tensor F) : result (tensor F) :=
  let num_input_steps := py_index (tf.shape self_similarity) 1 0%Z in
  let num_label_steps := py_index (tf.shape self_similarity) 2 0%Z in
  let steps := tf.range (num_label_steps - num_input_steps + 1)
                        (num_label_steps + 1) in
  let permuted_self_similarity := tf.transpose self_similarity [1; 0; 2] in
  permuted_attention <-
    tf.map_fn similarity_to_attention (steps, permuted_self_similarity) ;;
  Ok (tf.transpose permuted_attention [1; 0; 2]).

(** Lines 113-149. *)
Definition similarity_weighted_attention (labels : tensor Z)
           (self_similarity : tensor F) (num_classes : Z) : result (tensor F) :=
  attention <- attention_weights self_similarity ;;
  one_hot_labels <- tf.one_hot labels num_classes ;;
  tf.matmul attention one_hot_labels false.

(** *** [build_graph] *)

(** Lines 184-209: the tensors that depend on the mode. *)
Record ModeInputs : Type := {
  inputs : tensor F;
  labels : tensor Z;
  lengths : option (tensor Z);
  input_buffer : tensor F;
  past_encodings : tensor F;
  target_labels : tensor Z
}.

Definition mode_inputs (mode : string) (config : Config)
           (sequence_example_file_paths : option (list string)) (feeds : Feeds)
  : result ModeInputs :=
  let hparams := hparams config in
  let input_size := input_size (encoder_decoder config) in
  if (mode =? "train")%string || (mode =? "eval")%string then
    '(inputs, labels, lengths) <-
      get_padded_batch rt sequence_example_file_paths (batch_size hparams)
        input_size (mode =? "train")%string ;;
    input_buffer <-
      tf.zeros [batch_size hparams; window_size hparams - 1; input_size]%Z ;;
    past_encodings <-
      tf.zeros [batch_size hparams; 0; encoding_size hparams]%Z ;;
    let target_labels := getitem labels [(None, None); (None, Some (-1)%Z)] in
    Ok {| inputs := inputs; labels := labels; lengths := Some lengths;
          input_buffer := input_buffer; past_encodings := past_encodings;
          target_labels := target_labels |}
  else if (mode =? "generate")%string then
    inputs <-
      tf.placeholder (fed_inputs feeds)
        [Some (batch_size hparams); None; Some input_size] ;;
    input_buffer <-
      tf.placeholder (fed_input_buffer feeds)
        [Some (batch_size hparams); Some (window_size hparams - 1)%Z;
         Some input_size] ;;
    labels <- tf.placeholder (fed_labels feeds) [Some (batch_size hparams); None] ;;
    past_encodings <-
      tf.placeholder (fed_past_encodings feeds)
        [Some (batch_size hparams); None; Some (encoding_size hparams)] ;;
    Ok {| inputs := inputs; labels := labels; lengths := None;
          input_buffer := input_buffer; past_encodings := past_encodings;
          target_labels := labels |}
  else Raise (NameError "input_buffer").

(** Lines 221-224. *)
Definition self_similarity_of (encodings past_encodings : tensor F)
  : result (tensor F * tensor F) :=
  target_encodings <-
    tf.concat past_encodings
      (getitem encodings [(None, None); (None, Some (-1)%Z); (None, None)]) 1 ;;
  self_similarity <- tf.matmul encodings target_encodings true ;;
  Ok (target_encodings, self_similarity).

(** Lines 211-229: from the inputs to the inputs of the recurrent cell. *)
Record Features : Type := {
  padded_inputs : tensor F;
  input_windows : tensor F;
  encodings : tensor F;
  target_encodings : tensor F;
  self_similarity : tensor F;
  attention_inputs : tensor F;
  combined_inputs : tensor F
}.

Definition features (config : Config) (m : ModeInputs) : result Features :=
  let hparams := hparams config in
  let input_size := input_size (encoder_decoder config) in
  let num_classes := num_classes (encoder_decoder config) in
  padded_inputs <- tf.concat (input_buffer m) (inputs m) 1 ;;
  input_windows <-
    extract_input_windows padded_inputs (batch_size hparams) input_size
      (window_size hparams) ;;
  encodings <-
    encode_input_windows input_windows (batch_size hparams) input_size
      (window_size hparams) (encoding_size hparams) ;;
  '(target_encodings, self_similarity) <-
    self_similarity_of encodings (past_encodings m) ;;
  attention_inputs <-
    similarity_weighted_attention (target_labels m) self_similarity num_classes ;;
  combined_inputs <- tf.concat (inputs m) attention_inputs 2 ;;
  Ok {| padded_inputs := padded_inputs; input_windows := input_windows;
        encodings := encodings; target_encodings := target_encodings;
        self_similarity := self_similarity;
        attention_inputs := attention_inputs;
        combined_inputs := combined_inputs |}.

(** Lines 231-246: the recurrent cell, run over the combined inputs. *)
Record Recurrent : Type := {
  initial_state : list (tensor F);
  outputs : tensor F;
  final_state : list (tensor F);
  outputs_flat : tensor F;
  logits_flat : tensor F
}.

Definition recurrent (mode : string) (config : Config) (feeds : Feeds)
           (lengths : option (tensor Z)) (combined_inputs : tensor F)
  : result Recurrent :=
  let hparams := hparams config in
  let num_classes := num_classes (encoder_decoder config) in
  cell <-
    make_rnn_cell (rnn_layer_sizes hparams)
      (if (mode =? "generate")%string then fone else dropout_keep_prob hparams)
      (match attn_length hparams with Some n => n | None => 0%Z end)
      (BasicLSTMCell rt) ;;
  let initial_state :=
    match (mode =? "generate")%string, fed_initial_state feeds with
    | true, Some state => state
    | _, _ => zero_state cell (batch_size hparams)
    end in
  '(outputs, final_state) <-
    tf.nn.dynamic_rnn cell combined_inputs lengths initial_state ;;
  outputs_flat <- flatten_maybe_padded_sequences rt outputs lengths ;;
  logits_flat <-
    tf.contrib.layers.linear (variables rt "fully_connected/weights")
      (variables rt "fully_connected/biases") outputs_flat num_classes ;;
  Ok {| initial_state := initial_state; outputs := outputs;
        final_state := final_state; outputs_flat := outputs_flat;
        logits_flat := logits_flat |}.

(** Lines 255-259. *)
Record Predictions : Type := {
  predictions_flat : tensor Z;
  correct_predictions : tensor F;
  event_positions : tensor F;
  no_event_positions : tensor F
}.

Definition predictions (labels_flat : tensor Z) (logits_flat : tensor F)
           (no_event_label : Z) : Predictions :=
  let predictions_flat := tf.argmax logits_flat in
  {| predictions_flat := predictions_flat;
     correct_predictions := tf.to_float (tf.equal labels_flat predictions_flat);
     event_positions :=
       tf.to_float (tf.not_equal labels_flat (scalar_tensor no_event_label));
     no_event_positions :=
       tf.to_float (tf.equal labels_flat (scalar_tensor no_event_label)) |}.

(** Lines 262-270: the metrics of train mode. *)
Record Metrics : Type := {
  loss : tensor F;
  perplexity : tensor F;
  accuracy : tensor F;
  event_accuracy : tensor F;
  no_event_accuracy : tensor F
}.

Definition train_metrics (softmax_cross_entropy : tensor F) (p : Predictions)
  : result Metrics :=
  let loss := tf.reduce_mean softmax_cross_entropy in
  let perplexity := tf.exp loss in
  let accuracy := tf.reduce_mean (correct_predictions p) in
  correct_events <- tf.multiply (correct_predictions p) (event_positions p) ;;
  event_accuracy <-
    tf.div (tf.reduce_sum correct_events) (tf.reduce_sum (event_positions p)) ;;
  correct_no_events <-
    tf.multiply (correct_predictions p) (no_event_positions p) ;;
  no_event_accuracy <-
    tf.div (tf.reduce_sum correct_no_events)
           (tf.reduce_sum (no_event_positions p)) ;;
  Ok {| loss := loss; perplexity := perplexity; accuracy := accuracy;
        event_accuracy := event_accuracy;
        no_event_accuracy := no_event_accuracy |}.

(** Lines 315-318: the output of generate mode. *)
Definition generate_softmax (logits_flat temperature : tensor F)
           (batch_size num_classes : Z) : result (tensor F) :=
  temperatures <- tf.fill [num_classes] (item temperature) ;;
  scaled <- tf.div logits_flat temperatures ;;
  let softmax_flat := tf.nn.softmax scaled in
  tf.reshape softmax_flat [batch_size; -1; num_classes]%Z.

(** The tensors of a built graph.  In train mode [metrics] holds the values
    registered under ['loss'] and ['metrics/...']; the optimizer step and the
    streaming aggregates of eval mode are state of the TensorFlow runtime and
    are not represented.  In generate mode [softmax] is the tensor of the
    ['softmax'] collection. *)
Record Graph : Type := {
  graph_inputs : ModeInputs;
  graph_features : Features;
  graph_recurrent : Recurrent;
  graph_predictions : option Predictions;
  graph_metrics : option Metrics;
  softmax : option (tensor F)
}.

(** Lines 183-334: the body of the [with tf.Graph()...] block. *)
Definition graph_body (mode : string) (config : Config)
           (sequence_example_file_paths : option (list string)) (feeds : Feeds)
  : result Graph :=
  let hparams := hparams config in
  let num_classes := num_classes (encoder_decoder config) in
  let no_event_label := default_event_label (encoder_decoder config) in
  m <- mode_inputs mode config sequence_example_file_paths feeds ;;
  f <- features config m ;;
  r <- recurrent mode config feeds (lengths m) (combined_inputs f) ;;
  if (mode =? "train")%string || (mode =? "eval")%string then
    labels_flat <- flatten_maybe_padded_sequences rt (labels m) (lengths m) ;;
    softmax_cross_entropy <-
      tf.nn.sparse_softmax_cross_entropy_with_logits labels_flat (logits_flat r) ;;
    let p := predictions labels_flat (logits_flat r) no_event_label in
    if (mode =? "train")%string then
      metrics <- train_metrics softmax_cross_entropy p ;;
      Ok {| graph_inputs := m; graph_features := f; graph_recurrent := r;
            graph_predictions := Some p; graph_metrics := Some metrics;
            softmax := None |}
    else
      Ok {| graph_inputs := m; graph_features := f; graph_recurrent := r;
            graph_predictions := Some p; graph_metrics := None;
            softmax := None |}
  else if (mode =? "generate")%string then
    temperature <- tf.placeholder (fed_temperature feeds) [] ;;
    softmax <-
      generate_softmax (logits_flat r) temperature (batch_size hparams)
        num_classes ;;
    Ok {| graph_inputs := m; graph_features := f; graph_recurrent := r;
          graph_predictions := None; graph_metrics := None;
          softmax := Some softmax |}
  else
    Ok {| graph_inputs := m; graph_features := f; graph_recurrent := r;
          graph_predictions := None; graph_metrics := None;
          softmax := None |}.

(** Lines 152-334.  The result is paired with what the call did before the
    graph was populated. *)
Definition build_graph (mode : string) (config : Config)
           (sequence_example_file_paths : option (list string)) (feeds : Feeds)
  : list event * result Graph :=
  if negb (py_in mode ["train"; "eval"; "generate"]%string) then
    ([], Raise (ValueError
                  ("The mode parameter must be 'train', 'eval', or 'generate'. "
                   ++ "The mode parameter was: " ++ mode)%string))
  else
    ([LoggingInfo "hparams = %s"; GraphCreated],
     graph_body mode config sequence_example_file_paths feeds).

End Graph.

(** ** Statements about the attention weights *)

(** The weights a query step gets from its row [s] of similarities when the
    slice bound resolves to [e]: the softmax of the first [e] entries, then
    zeros. *)
Definition attention_row {F} {SF : Scalar F} (e : nat) (s : nat -> F) (j : nat) : F :=
  if j <? e then fdiv (fexp (s j)) (tf.fsum e (fun k => fexp (s k)))
  else fzero.

(** The aligned position [p(i) = num_key_steps - num_query_steps + i + 1] of
    query step [i]. *)
Definition aligned_position (Q K i : nat) : Z :=
  (Z.of_nat K - Z.of_nat Q + 1 + Z.of_nat i)%Z.


(** The runtime [rt] with other random draws and another dataset source. *)
Definition with_draws {F : Type} (rt : @Runtime F)
           (u : nat -> nat -> list nat -> F)
           (batch : option (list string) -> Z -> Z -> bool ->
                    result (tensor F * tensor Z * tensor Z)) : Runtime :=
  {| BasicLSTMCell := BasicLSTMCell rt;
     AttentionCellWrapper := AttentionCellWrapper rt;
     get_padded_batch := batch;
     flatten_maybe_padded_sequences := flatten_maybe_padded_sequences rt;
     variables := variables rt;
     random_uniform := u |}.

(** Lines 184-229 for the batch [(x, lbls, lens)] drawn from the dataset: the
    mode-dependent tensors, then the features. *)
Definition features_of_batch {F : Type} {SF : Scalar F} (rt : Runtime)
           (mode : string) (config : Config) (paths : option (list string))
           (feeds : Feeds) (x : tensor F) (lbls lens : tensor Z)
  : result Features :=
  let rt' := with_draws rt (random_uniform rt)
                        (fun _ _ _ _ => Ok (x, lbls, lens)) in
  m <- mode_inputs rt' mode config paths feeds ;;
  features rt' config m.

(** ** A small runtime, configuration and feeds

    Used to instantiate the statements below on concrete values. *)

Definition example_cell (num_units : Z) : RNNCell R :=
  {| state_len := 0;
     output_size := Z.to_nat num_units;
     zero_state := fun _ => [];
     call := fun _ x _ =>
       Ok (Tensor [nth 0 (dims x) 0; Z.to_nat num_units] (fun _ => 0%R), []) |}.

Definition example_flatten (A : Type) (t : tensor A) (lengths : option (tensor Z))
  : result (tensor A) :=
  tf.reshape t ((-1)%Z :: map Z.of_nat (skipn 2 (dims t))).

Definition example_batch : tensor R * tensor Z * tensor Z :=
  (Tensor [1; 2; 1] (fun _ => 0%R),
   Tensor [1; 2] (fun idx => Z.of_nat (nth 1 idx 0)),
   Tensor [1] (fun _ => 2%Z)).

Definition example_runtime : Runtime :=
  {| BasicLSTMCell := example_cell;
     AttentionCellWrapper := fun cell _ => cell;
     get_padded_batch := fun _ _ _ _ => Ok example_batch;
     flatten_maybe_padded_sequences := example_flatten;
     variables := fun _ _ => 0%R;
     random_uniform := fun _ _ _ => 0%R |}.

Definition example_config : Config :=
  {| hparams :=
       {| batch_size := 1; window_size := 2; encoding_size := 1;
          rnn_layer_sizes := [2%Z]; dropout_keep_prob := (1 / 2)%R;
          attn_length := None; learning_rate := 0%R; clip_norm := 0%R |};
     encoder_decoder :=
       {| input_size := 1; num_classes := 2; default_event_label := 0 |} |}.

Definition example_feeds : Feeds :=
  {| fed_inputs := Tensor [1; 1; 1] (fun _ => 0%R);
     fed_input_buffer := Tensor [1; 1; 1] (fun _ => 0%R);
     fed_labels := Tensor [1; 0] (fun _ => 0%Z);
     fed_past_encodings := Tensor [1; 0; 1] (fun _ => 0%R);
     fed_temperature := scalar_tensor 1%R;
     fed_initial_state := None |}.

Definition example_feeds_at (temperature : R) : Feeds :=
  {| fed_inputs := fed_inputs example_feeds;
     fed_input_buffer := fed_input_buffer example_feeds;
     fed_labels := fed_labels example_feeds;
     fed_past_encodings := fed_past_encodings example_feeds;
     fed_temperature := scalar_tensor temperature;
     fed_initial_state := None |}.

(** ** Statements about the layers, the encodings and the padded inputs *)



(** Entry [(b, j, f)] of the concatenation of a buffer of [n] steps and the
    inputs [x] along the time axis. *)
Definition padded_at {F : Type} (n : nat) (buffer x : tensor F) (b j f : nat) : F :=
  if j <? n then get buffer [b; j; f] else get x [b; j - n; f].

(** The encoding of one flattened window [row] of [n] entries: the layer of
    [encode_input_windows] seen from one output position. *)
Definition window_encoding {F : Type} {SF : Scalar F}
           (weights biases : list nat -> F) (n : nat) (row : nat -> F) (e : nat) : F :=
  tf.nn.relu
    (fadd (tf.fsum 1 (fun di =>
           tf.fsum n (fun m =>
           tf.fsum 1 (fun ci => fmul (row m) (weights [di; m; ci; e])))))
          (biases [e])).

(** * Properties *)

Lemma clamp_index_le (d : nat) (k : Z) : clamp_index d k <= d.
Proof. unfold clamp_index. destruct (k <? 0)%Z; lia. Qed.

Lemma clamp_index_nonneg (d : nat) (k : Z) :
  (0 <= k <= Z.of_nat d)%Z -> clamp_index d k = Z.to_nat k.
Proof.
  intros H. unfold clamp_index.
  destruct (k <? 0)%Z eqn:E; [apply Z.ltb_lt in E; lia | f_equal; lia].
Qed.

Lemma shape_eqb_refl (s : list nat) : shape_eqb s s = true.
Proof. unfold shape_eqb. destruct (list_eq_dec Nat.eq_dec s s); congruence. Qed.

Lemma mapM_map_Forall2 {A B C} (f : B -> result C) (h : A -> B)
      (P : A -> C -> Prop) (l : list A) :
  (forall x, In x l -> exists y, f (h x) = Ok y /\ P x y) ->
  exists ys, mapM f (map h l) = Ok ys /\ Forall2 P l ys.
Proof.
  induction l as [|x l IH]; intros H.
  - exists []. split; [reflexivity | constructor].
  - destruct (H x (or_introl eq_refl)) as (y & Hy & Py).
    destruct IH as (ys & Hys & Pys); [intros z Hz; apply H; now right|].
    exists (y :: ys). cbn. rewrite Hy. cbn. rewrite Hys. cbn.
    split; [reflexivity | now constructor].
Qed.

Lemma combine_map_same {A B C} (f : A -> B) (g : A -> C) (l : list A) :
  combine (map f l) (map g l) = map (fun x => (f x, g x)) l.
Proof. induction l; cbn; congruence. Qed.

Lemma Forall2_nth_seq {C} (P : nat -> C -> Prop) (n : nat) (ys : list C) (d : C) :
  Forall2 P (seq 0 n) ys ->
  length ys = n /\ forall i, i < n -> P i (nth i ys d).
Proof.
  intros H. pose proof (Forall2_length H) as L. rewrite length_seq in L.
  split; [auto|]. intros i Hi.
  assert (G : forall (l : list nat) ys, Forall2 P l ys ->
             forall i, i < length l -> P (nth i l 0) (nth i ys d)).
  { clear. induction 1; intros [|i] Hi; cbn in *; try lia; auto.
    apply IHForall2. lia. }
  specialize (G _ _ H i). rewrite length_seq, seq_nth in G by lia.
  apply G. lia.
Qed.

Section AttentionFacts.
Context {F : Type} {SF : Scalar F}.


Lemma similarity_to_attention_ok (step : tensor Z) (sim : tensor F) (B K : nat) :
  dims sim = [B; K] ->
  exists row,
    similarity_to_attention (step, sim) = Ok row /\
    dims row = [B; K] /\
    forall b j, get row [b; j] =
      attention_row (clamp_index K (item step)) (fun k => get sim [b; k]) j.
Proof.
  destruct sim as [d g]. cbn [dims]. intros ->.
  unfold similarity_to_attention, tf.concat, rank.
  pose proof (clamp_index_le K (item step)) as Hle.
  cbn [tf.nn.softmax getitem dims tf.zeros_like get
       slice_dims slice_begin slice_end fst snd length].
  change (norm_axis 2 (-1)) with (Some 1).
  remember (clamp_index K (item step)) as e eqn:He.
  cbn [replace_nth nth]. rewrite shape_eqb_refl.
  eexists. split; [reflexivity|]. split.
  - cbn [dims]. f_equal; [lia | f_equal; lia].
  - intros b j. cbn [get nth slice_index removelast app last slice_begin fst].
    unfold attention_row, tf.fsum. cbn [get].
    rewrite !Nat.sub_0_r. reflexivity.
Qed.

Lemma attention_weights_ok (sim : tensor F) (B Q K : nat) :
  dims sim = [B; Q; K] -> 0 < Q ->
  exists att,
    attention_weights sim = Ok att /\
    dims att = [B; Q; K] /\
    forall b i j, i < Q ->
      get att [b; i; j] =
      attention_row (clamp_index K (aligned_position Q K i))
                    (fun k => get sim [b; i; k]) j.
Proof.
  destruct sim as [d g]. cbn [dims]. intros -> HQ.
  unfold attention_weights, tf.map_fn, tf.range, tf.transpose, unstack, tf.shape, py_index.
  cbn [dims map nth hd tl get length seq find_index Nat.eqb].
  replace (Z.to_nat (Z.of_nat K + 1 - (Z.of_nat K - Z.of_nat Q + 1))) with Q by lia.
  rewrite Nat.eqb_refl, combine_map_same.
  match goal with
  | |- context [mapM ?f (map ?h ?l)] =>
      destruct (@mapM_map_Forall2 _ _ _ f h
                  (fun i row => dims row = [B; K] /\
                     forall b j, get row [b; j] =
                       attention_row (clamp_index K (aligned_position Q K i))
                                     (fun k => g [b; i; k]) j) l)
        as (ys & Hys & Pys)
  end.
  { intros i _. cbv beta.
    match goal with
    | |- context [similarity_to_attention (?st, ?sm)] =>
        destruct (@similarity_to_attention_ok st sm B K eq_refl)
          as (row & Hrow & Hd & Hg)
    end.
    exists row. split; [exact Hrow|]. split; [exact Hd|].
    intros b j. rewrite Hg. reflexivity. }
  rewrite Hys. cbn [bind].
  destruct ys as [|r rs].
  { inversion Pys as [E|]. destruct Q; [lia | discriminate]. }
  pose proof (@Forall2_nth_seq _ _ _ _ r Pys) as [L N].
  unfold stack.
  assert (Hall : forallb (fun t : tensor F => shape_eqb (dims t) (dims r)) rs = true).
  { apply forallb_forall. intros t Ht.
    destruct (In_nth _ _ r Ht) as (n & Hn & <-).
    destruct (N 0 HQ) as [D0 _]. cbn in D0.
    destruct (N (S n)) as [Dn _]; [cbn in L; lia|]. cbn in Dn.
    rewrite D0, Dn. apply shape_eqb_refl. }
  rewrite Hall. eexists. split; [reflexivity|]. split.
  - cbn. destruct (N 0 HQ) as [D0 _]. cbn in D0. rewrite D0.
    cbn in L. cbn. congruence.
  - intros b i j Hi. cbn.
    destruct (N i Hi) as [_ G]. apply G.
Qed.

End AttentionFacts.

(** *** Sums of reals *)

Lemma fsum_ext {F} {SF : Scalar F} (n : nat) (f g : nat -> F) :
  (forall k, k < n -> f k = g k) -> tf.fsum n f = tf.fsum n g.
Proof.
  intros H. unfold tf.fsum. f_equal. apply map_ext_in.
  intros k Hk. apply in_seq in Hk. apply H. lia.
Qed.

Lemma fsum_S_R (n : nat) (f : nat -> R) :
  tf.fsum (S n) f = (tf.fsum n f + f n)%R.
Proof.
  unfold tf.fsum. rewrite seq_S, map_app. cbn [map Nat.add].
  generalize (map f (seq 0 n)) as l. induction l as [|x l IH].
  - cbn. lra.
  - cbn [app fold_right]. rewrite IH. cbn. lra.
Qed.

Lemma fsum_zero_R (n : nat) (f : nat -> R) :
  (forall k, k < n -> f k = 0%R) -> tf.fsum n f = 0%R.
Proof.
  induction n as [|n IH]; intros H; [reflexivity|].
  rewrite fsum_S_R, IH, H by auto. lra.
Qed.

Lemma fsum_div_R (n : nat) (f : nat -> R) (c : R) :
  tf.fsum n (fun k => (f k / c)%R) = (tf.fsum n f / c)%R.
Proof.
  induction n as [|n IH].
  - cbn. unfold Rdiv. lra.
  - rewrite !fsum_S_R, IH. unfold Rdiv. lra.
Qed.

Lemma fsum_pos_R (n : nat) (f : nat -> R) :
  0 < n -> (forall k, (0 < f k)%R) -> (0 < tf.fsum n f)%R.
Proof.
  intros Hn Hf. destruct n as [|n]; [lia|]. clear Hn.
  induction n as [|n IH].
  - rewrite fsum_S_R. cbn. specialize (Hf 0). lra.
  - rewrite fsum_S_R. specialize (Hf (S n)). lra.
Qed.

Lemma softmax_mass_R (e : nat) (s : nat -> R) :
  0 < e -> tf.fsum e (attention_row e s) = 1%R.
Proof.
  intros He.
  rewrite (@fsum_ext _ _ e _
             (fun j => (exp (s j) / tf.fsum e (fun k => exp (s k)))%R)).
  - rewrite fsum_div_R. apply Rdiv_diag.
    apply Rgt_not_eq, Rlt_gt, fsum_pos_R; [exact He | intros; apply exp_pos].
  - intros k Hk. unfold attention_row.
    destruct (Nat.ltb_spec k e); [reflexivity | lia].
Qed.

(** *** C1: causal softmax weights *)




(** In [build_graph] there are [T] query steps and [P + T - 1] key steps,
    [P] being the number of past encodings: no aligned position is negative
    there. *)
Lemma aligned_position_in_graph (T P i : nat) :
  1 <= T -> aligned_position T (P + (T - 1)) i = Z.of_nat (P + i).
Proof. intros HT. unfold aligned_position. lia. Qed.

(** *** C2: a query step with no valid key *)

Section FeatureFacts.
Context {F : Type} {SF : Scalar F}.

Lemma fsum_zero (n : nat) (f : nat -> F) :
  fadd fzero fzero = fzero ->
  (forall k, k < n -> f k = fzero) -> tf.fsum n f = fzero.
Proof.
  intros H0 H. unfold tf.fsum.
  assert (G : forall l, (forall x, In x l -> x = fzero) ->
                        fold_right fadd fzero l = fzero).
  { induction l as [|x l IH]; intros Hl; [reflexivity|].
    cbn. rewrite IH; [|intros y Hy; apply Hl; now right].
    rewrite (Hl x); [exact H0 | now left]. }
  apply G. intros x Hx. apply in_map_iff in Hx as (k & <- & Hk).
  apply in_seq in Hk. apply H. lia.
Qed.

Lemma matmul_ok (a b : tensor F) (B n m p : nat) :
  dims a = [B; n; m] -> dims b = [B; m; p] ->
  exists c,
    tf.matmul a b false = Ok c /\
    dims c = [B; n; p] /\
    forall bi i j,
      get c [bi; i; j] =
      tf.fsum m (fun k => fmul (get a [bi; i; k]) (get b [bi; k; j])).
Proof.
  intros Ha Hb. unfold tf.matmul. rewrite Ha, Hb, !Nat.eqb_refl. cbn [andb].
  eexists. split; [reflexivity|]. split; reflexivity.
Qed.

(** The feature of [similarity_weighted_attention]: the attention row times
    the one-hot labels. *)
Lemma similarity_weighted_attention_ok (lbls : tensor Z) (sim : tensor F)
      (C : Z) (B Q K : nat) :
  dims sim = [B; Q; K] -> dims lbls = [B; K] -> 0 < Q -> (0 <= C)%Z ->
  exists feature,
    similarity_weighted_attention lbls sim C = Ok feature /\
    dims feature = [B; Q; Z.to_nat C] /\
    forall b i c, i < Q ->
      get feature [b; i; c] =
      tf.fsum K (fun k =>
        fmul (attention_row (clamp_index K (aligned_position Q K i))
                            (fun k' => get sim [b; i; k']) k)
             (if (get lbls [b; k] =? Z.of_nat c)%Z then fone else fzero)).
Proof.
  intros Hs Hl HQ HC. unfold similarity_weighted_attention.
  destruct (attention_weights_ok sim Hs HQ) as (att & -> & Hda & Hg).
  cbn [bind]. unfold tf.one_hot.
  destruct (Z.ltb_spec C 0); [lia|]. cbn [bind].
  match goal with
  | |- context [tf.matmul att ?oh false] =>
      destruct (@matmul_ok att oh B Q K (Z.to_nat C) Hda) as (c0 & -> & Hdc & Hc)
  end.
  { cbn. rewrite Hl. reflexivity. }
  exists c0. split; [reflexivity|]. split; [exact Hdc|].
  intros b i c Hi. rewrite Hc. apply fsum_ext. intros k _.
  rewrite (Hg b i k Hi). reflexivity.
Qed.

End FeatureFacts.

(** C2: when the aligned position of query step [i] is 0, row [(b, i)] of the
    attention feature has length [num_classes] and every entry of it is zero.
    The scalar type only has to satisfy [0 * 0 = 0], [0 * 1 = 0] and
    [0 + 0 = 0], which excludes a NaN in the row. *)
Theorem attention_feature_no_valid_keys {F : Type} {SF : Scalar F}
        (lbls : tensor Z) (sim : tensor F) (C : Z) (B Q K b i : nat) :
  fmul fzero fzero = fzero -> fmul fzero fone = fzero ->
  fadd fzero fzero = fzero ->
  dims sim = [B; Q; K] -> dims lbls = [B; K] -> (0 <= C)%Z ->
  b < B -> i < Q -> aligned_position Q K i = 0%Z ->
  exists feature,
    similarity_weighted_attention lbls sim C = Ok feature /\
    dims feature = [B; Q; Z.to_nat C] /\
    forall c, c < Z.to_nat C -> get feature [b; i; c] = fzero.
Proof.
  intros M0 M1 A0 Hs Hl HC Hb Hi Hp.
  destruct (@similarity_weighted_attention_ok _ _ lbls sim C B Q K Hs Hl)
    as (feature & Hf & Hd & Hg); [lia | exact HC |].
  exists feature. split; [exact Hf|]. split; [exact Hd|].
  intros c _. rewrite (Hg b i c Hi). apply fsum_zero; [exact A0|].
  intros k _. rewrite Hp. unfold attention_row.
  change (clamp_index K 0) with (Z.to_nat (Z.max 0 (Z.min (Z.of_nat K) 0))).
  replace (Z.to_nat (Z.max 0 (Z.min (Z.of_nat K) 0))) with 0 by lia.
  cbn. destruct (get lbls [b; k] =? Z.of_nat c)%Z; assumption.
Qed.

Lemma attention_feature_no_valid_keys_witness :
  exists feature,
    similarity_weighted_attention (Tensor [1; 1] (fun _ => 2%Z))
      (Tensor [1; 2; 1] (fun _ => 0%R)) 3 = Ok feature /\
    dims feature = [1; 2; 3] /\
    forall c, c < 3 -> get feature [0; 0; c] = 0%R.
Proof.
  apply (@attention_feature_no_valid_keys R Scalar_R
           (Tensor [1; 1] (fun _ => 2%Z)) (Tensor [1; 2; 1] (fun _ => 0%R))
           3 1 2 1 0 0).
  - cbn. lra.
  - cbn. lra.
  - cbn. lra.
  - reflexivity.
  - reflexivity.
  - lia.
  - lia.
  - lia.
  - reflexivity.
Defined.

(** *** C3: self-similarity *)

Section SimilarityFacts.
Context {F : Type} {SF : Scalar F}.

Lemma concat_axis1_ok {A} (a b : tensor A) (B n1 n2 E : nat) :
  dims a = [B; n1; E] -> dims b = [B; n2; E] ->
  exists c,
    tf.concat a b 1 = Ok c /\
    dims c = [B; n1 + n2; E] /\
    forall bi j k,
      get c [bi; j; k] =
      if j <? n1 then get a [bi; j; k] else get b [bi; j - n1; k].
Proof.
  intros Ha Hb. unfold tf.concat, rank. rewrite Ha, Hb.
  change (norm_axis (length [B; n1; E]) 1) with (Some 1).
  cbn [replace_nth nth]. rewrite shape_eqb_refl.
  eexists. split; [reflexivity|]. split; reflexivity.
Qed.

Lemma matmul_transpose_b_ok (a b : tensor F) (B n m p : nat) :
  dims a = [B; n; m] -> dims b = [B; p; m] ->
  exists c,
    tf.matmul a b true = Ok c /\
    dims c = [B; n; p] /\
    forall bi i j,
      get c [bi; i; j] =
      tf.fsum m (fun k => fmul (get a [bi; i; k]) (get b [bi; j; k])).
Proof.
  intros Ha Hb. unfold tf.matmul. rewrite Ha, Hb, !Nat.eqb_refl. cbn [andb].
  eexists. split; [reflexivity|]. split; reflexivity.
Qed.

Lemma clamp_index_minus_one (d : nat) : clamp_index d (-1) = d - 1.
Proof.
  unfold clamp_index. destruct (-1 <? 0)%Z eqn:E; [lia | discriminate].
Qed.

End SimilarityFacts.

(** C3: for encodings of shape [B, Q, E] and past encodings of shape
    [B, P, E], the targets are the past encodings followed by all encodings
    but the last, and [similarity[b, i, j]] is the dot product of
    [encodings[b, i]] and [targets[b, j]], for every [b], [i] and [j]: the
    result has shape [B, Q, P + Q - 1] and no entry of it is masked. *)
Theorem self_similarity_dot_products {F : Type} {SF : Scalar F}
        (enc past : tensor F) (B Q P E : nat) :
  dims enc = [B; Q; E] -> dims past = [B; P; E] ->
  exists targets sim,
    self_similarity_of enc past = Ok (targets, sim) /\
    dims targets = [B; P + (Q - 1); E] /\
    (forall b j k,
       get targets [b; j; k] =
       if j <? P then get past [b; j; k] else get enc [b; j - P; k]) /\
    dims sim = [B; Q; P + (Q - 1)] /\
    forall b i j,
      get sim [b; i; j] =
      tf.fsum E (fun k => fmul (get enc [b; i; k]) (get targets [b; j; k])).
Proof.
  intros He Hp. unfold self_similarity_of.
  match goal with
  | |- context [tf.concat past ?s 1] =>
      destruct (@concat_axis1_ok F past s B P (Q - 1) E Hp)
        as (targets & -> & Hdt & Ht)
  end.
  { cbn. rewrite He. cbn. rewrite clamp_index_minus_one.
    f_equal; [lia | f_equal; [lia | f_equal; lia]]. }
  cbn [bind].
  destruct (matmul_transpose_b_ok enc targets He Hdt) as (sim & -> & Hds & Hs).
  cbn [bind]. exists targets, sim. split; [reflexivity|].
  split; [exact Hdt|]. split.
  - intros b j k. rewrite Ht. destruct (j <? P); [reflexivity|].
    cbn. rewrite He. reflexivity.
  - split; [exact Hds | exact Hs].
Qed.

Lemma self_similarity_dot_products_witness :
  exists targets sim,
    self_similarity_of (Tensor [1; 2; 1] (fun _ => 2%R))
                       (Tensor [1; 1; 1] (fun _ => 3%R)) = Ok (targets, sim) /\
    dims targets = [1; 1 + (2 - 1); 1] /\
    (forall b j k,
       get targets [b; j; k] =
       if j <? 1 then get (Tensor [1; 1; 1] (fun _ => 3%R)) [b; j; k]
       else get (Tensor [1; 2; 1] (fun _ => 2%R)) [b; j - 1; k]) /\
    dims sim = [1; 2; 1 + (2 - 1)] /\
    forall b i j,
      get sim [b; i; j] =
      tf.fsum 1 (fun k => fmul (get (Tensor [1; 2; 1] (fun _ => 2%R)) [b; i; k])
                               (get targets [b; j; k])).
Proof.
  apply (@self_similarity_dot_products R Scalar_R
           (Tensor [1; 2; 1] (fun _ => 2%R)) (Tensor [1; 1; 1] (fun _ => 3%R))
           1 2 1 1); reflexivity.
Defined.

(** *** Reshaping *)

Lemma ravel_lt (sh idx : list nat) :
  in_range idx sh -> ravel sh idx < numel sh.
Proof.
  revert idx. induction sh as [|d sh IH]; intros [|i idx] H; cbn in *;
    try tauto; try lia.
  destruct H as [Hi H]. specialize (IH _ H). fold (numel sh). nia.
Qed.

Lemma unravel_ravel (sh idx : list nat) :
  in_range idx sh -> unravel sh (ravel sh idx) = idx.
Proof.
  revert idx. induction sh as [|d sh IH]; intros [|i idx] H; cbn in *;
    try tauto.
  destruct H as [Hi H]. pose proof (ravel_lt _ _ H) as Hlt.
  rewrite <- (Nat.div_unique (i * numel sh + ravel sh idx) (numel sh) i
                (ravel sh idx)) by lia.
  rewrite <- (Nat.mod_unique (i * numel sh + ravel sh idx) (numel sh) i
                (ravel sh idx)) by lia.
  rewrite IH by exact H. reflexivity.
Qed.

Lemma known_product_of_nat (l : list nat) :
  fold_right Z.mul 1%Z (filter (fun d => negb (d =? -1)%Z) (map Z.of_nat l))
  = Z.of_nat (numel l).
Proof.
  induction l as [|d l IH]; [reflexivity|]. cbn [map filter].
  destruct (Z.eqb_spec (Z.of_nat d) (-1)); [lia|]. cbn [negb fold_right numel].
  rewrite IH. fold (numel l). lia.
Qed.

Lemma infer_shape_wildcard (n T : nat) (pre post : list nat) :
  0 < numel pre -> 0 < numel post -> n = numel pre * T * numel post ->
  tf.infer_shape n (map Z.of_nat pre ++ (-1)%Z :: map Z.of_nat post)
  = Some (pre ++ T :: post).
Proof.
  intros Hpre Hpost Hn. unfold tf.infer_shape.
  assert (Hex : forall l, existsb (fun d => (d <? -1)%Z) (map Z.of_nat l) = false).
  { induction l as [|d l IH]; [reflexivity|]. cbn.
    destruct (Z.ltb_spec (Z.of_nat d) (-1)); [lia | exact IH]. }
  assert (Hco : forall l, count_occ Z.eq_dec (map Z.of_nat l) (-1)%Z = 0).
  { induction l as [|d l IH]; [reflexivity|]. cbn.
    destruct (Z.eq_dec (Z.of_nat d) (-1)); [lia | exact IH]. }
  rewrite existsb_app. cbn [existsb]. rewrite !Hex.
  change (-1 <? -1)%Z with false. cbn [orb].
  rewrite count_occ_app. cbn [count_occ].
  destruct (Z.eq_dec (-1) (-1)) as [_|]; [|congruence]. rewrite !Hco. cbn [Nat.add].
  rewrite filter_app. cbn [filter]. change (negb (-1 =? -1)%Z) with false.
  cbv iota. rewrite fold_right_app.
  assert (Hfold : forall l a, fold_right Z.mul a l
                              = (fold_right Z.mul 1 l * a)%Z).
  { induction l as [|x l IH]; intros a; cbn [fold_right]; [lia|].
    rewrite IH. ring. }
  rewrite Hfold, !known_product_of_nat.
  set (k := (Z.of_nat (numel pre) * Z.of_nat (numel post))%Z).
  assert (Hk : (0 < k)%Z) by (unfold k; nia).
  destruct (Z.eqb_spec k 0); [lia|].
  assert (Hz : Z.of_nat n = (Z.of_nat T * k)%Z) by (unfold k; subst n; lia).
  rewrite Hz, Z.mod_mul, Z.div_mul by lia. cbn [Z.eqb].
  f_equal. rewrite map_app. cbn [map]. change (-1 =? -1)%Z with true. cbv iota.
  assert (Hmap : forall l, map (fun d => if (d =? -1)%Z then Z.to_nat (Z.of_nat T)
                                         else Z.to_nat d) (map Z.of_nat l) = l).
  { induction l as [|d l IH]; [reflexivity|]. cbn [map].
    destruct (Z.eqb_spec (Z.of_nat d) (-1)); [lia|].
    rewrite Nat2Z.id, IH. reflexivity. }
  rewrite !Hmap, Nat2Z.id. reflexivity.
Qed.

(** *** C4: sliding windows *)

Lemma extract_input_windows_ok {F : Type} (inputs : tensor F) (B T s w : nat) :
  dims inputs = [B; w - 1 + T; s] -> 0 < B -> 0 < s -> 0 < w ->
  exists windows,
    extract_input_windows inputs (Z.of_nat B) (Z.of_nat s) (Z.of_nat w)
    = Ok windows /\
    dims windows = [B; T; s; w] /\
    forall b i f k, b < B -> i < T -> f < s -> k < w ->
      get windows [b; i; f; k]
      = get inputs [b; i + (f * w + k) / s; (f * w + k) mod s].
Proof.
  intros Hd HB Hs Hw.
  unfold extract_input_windows, tf.expand_dims, rank. rewrite Hd.
  change (norm_axis (S (length [B; w - 1 + T; s])) (-1)) with (Some 3).
  cbn [bind firstn skipn app]. unfold tf.extract_image_patches. cbn [dims].
  destruct (Z.ltb_spec (Z.of_nat w) 1); [lia|].
  destruct (Z.ltb_spec (Z.of_nat s) 1); [lia|]. cbn [orb].
  rewrite !Nat2Z.id.
  destruct (Nat.ltb_spec (w - 1 + T + 1) w); [lia|].
  destruct (Nat.ltb_spec (s + 1) s); [lia|]. cbn [orb bind].
  unfold tf.reshape. cbn [dims].
  pose proof (@infer_shape_wildcard
                (numel [B; w - 1 + T + 1 - w; s + 1 - s; w * s * 1]) T [B] [s; w])
    as Hi.
  cbn [map app] in Hi. rewrite Hi; clear Hi.
  - eexists. split; [reflexivity|]. split; [reflexivity|].
    intros b i f k Hb Hi Hf Hk. cbn [get].
    replace (ravel [B; T; s; w] [b; i; f; k])
      with (ravel [B; w - 1 + T + 1 - w; s + 1 - s; w * s * 1]
                  [b; i; 0; f * w + k]).
    + rewrite unravel_ravel.
      * cbn [firstn skipn app]. rewrite Nat.mul_1_r, Nat.div_1_r.
        rewrite Nat.add_0_l. reflexivity.
      * cbn. repeat split; try lia. nia.
    + cbn. replace (w - 1 + T + 1 - w) with T by lia.
      replace (s + 1 - s) with 1 by lia. ring.
  - cbn. lia.
  - cbn. nia.
  - cbn. replace (w - 1 + T + 1 - w) with T by lia.
    replace (s + 1 - s) with 1 by lia. ring.
Qed.

(** C4: for [window_size >= 1] and a padded input of [window_size - 1 + T]
    steps, [extract_input_windows] returns exactly [T] windows; read row by
    row, window [i] lists the features of the steps [i, ..., i + window_size
    - 1] in order and nothing else; with [window_size = 1] window [i] is step
    [i]. *)
Theorem extract_input_windows_steps {F : Type} (inputs : tensor F)
        (B T s w : nat) :
  dims inputs = [B; w - 1 + T; s] -> 0 < B -> 0 < s -> 1 <= w ->
  exists windows,
    extract_input_windows inputs (Z.of_nat B) (Z.of_nat s) (Z.of_nat w)
    = Ok windows /\
    dims windows = [B; T; s; w] /\
    (forall b i f k, b < B -> i < T -> f < s -> k < w ->
       (f * w + k) / s < w /\
       get windows [b; i; f; k]
       = get inputs [b; i + (f * w + k) / s; (f * w + k) mod s]) /\
    (forall b i t f, b < B -> i < T -> t < w -> f < s ->
       get windows [b; i; (t * s + f) / w; (t * s + f) mod w]
       = get inputs [b; i + t; f]) /\
    (w = 1 ->
     forall b i f, b < B -> i < T -> f < s ->
       get windows [b; i; f; 0] = get inputs [b; i; f]).
Proof.
  intros Hd HB Hs Hw.
  destruct (extract_input_windows_ok inputs T Hd HB Hs)
    as (windows & Hwin & Hdw & Hg); [lia|].
  exists windows. split; [exact Hwin|]. split; [exact Hdw|].
  assert (Hsteps : forall b i t f, b < B -> i < T -> t < w -> f < s ->
            get windows [b; i; (t * s + f) / w; (t * s + f) mod w]
            = get inputs [b; i + t; f]).
  { intros b i t f Hb Hi Ht Hf.
    rewrite Hg; try assumption.
    - replace ((t * s + f) / w * w + (t * s + f) mod w) with (t * s + f)
        by (rewrite (Nat.div_mod_eq (t * s + f) w) at 1; lia).
      rewrite <- (Nat.div_unique (t * s + f) s t f) by lia.
      rewrite <- (Nat.mod_unique (t * s + f) s t f) by lia.
      reflexivity.
    - apply Nat.Div0.div_lt_upper_bound. nia.
    - apply Nat.mod_upper_bound. lia. }
  split; [|split].
  - intros b i f k Hb Hi Hf Hk. split.
    + apply Nat.Div0.div_lt_upper_bound. nia.
    + apply Hg; assumption.
  - exact Hsteps.
  - intros -> b i f Hb Hi Hf.
    specialize (Hsteps b i 0 f Hb Hi ltac:(lia) Hf).
    rewrite Nat.mul_0_l, Nat.add_0_l, Nat.div_1_r, Nat.mod_1_r, Nat.add_0_r
      in Hsteps.
    exact Hsteps.
Qed.

Lemma extract_input_windows_steps_witness :
  exists windows,
    extract_input_windows (Tensor [1; 3; 2] (fun idx => INR (ravel [1; 3; 2] idx)))
                          1 2 2 = Ok windows /\
    dims windows = [1; 2; 2; 2] /\
    (forall b i f k, b < 1 -> i < 2 -> f < 2 -> k < 2 ->
       (f * 2 + k) / 2 < 2 /\
       get windows [b; i; f; k]
       = INR (ravel [1; 3; 2] [b; i + (f * 2 + k) / 2; (f * 2 + k) mod 2])) /\
    (forall b i t f, b < 1 -> i < 2 -> t < 2 -> f < 2 ->
       get windows [b; i; (t * 2 + f) / 2; (t * 2 + f) mod 2]
       = INR (ravel [1; 3; 2] [b; i + t; f])) /\
    (2 = 1 ->
     forall b i f, b < 1 -> i < 2 -> f < 2 ->
       get windows [b; i; f; 0] = INR (ravel [1; 3; 2] [b; i; f])).
Proof.
  apply (@extract_input_windows_steps R
           (Tensor [1; 3; 2] (fun idx => INR (ravel [1; 3; 2] idx))) 1 2 2 2).
  - reflexivity.
  - lia.
  - lia.
  - lia.
Defined.

(** The last two axes of the result are only a reshape of the flattened
    window: with two features and a window of two steps, entry [(0, 1)] of
    window 0 is feature 1 of step 0, not feature 0 of step 1. *)
Lemma extract_input_windows_layout :
  exists windows,
    extract_input_windows (Tensor [1; 3; 2] (fun idx => INR (ravel [1; 3; 2] idx)))
                          1 2 2 = Ok windows /\
    get windows [0; 0; 0; 1] = INR (ravel [1; 3; 2] [0; 0; 1]).
Proof.
  destruct (@extract_input_windows_ok R
              (Tensor [1; 3; 2] (fun idx => INR (ravel [1; 3; 2] idx))) 1 2 2 2
              eq_refl) as (windows & Hw & _ & Hg); try lia.
  exists windows. split; [exact Hw|]. rewrite Hg by lia. reflexivity.
Qed.

(** *** C9: the window size is not validated *)

(** C9 (amended): [extract_input_windows] does not check [window_size]; with
    [window_size <= 0] the call fails inside a TensorFlow op, with the error
    of that op and not with an error of the module.  (The function is pure:
    its result is all it produces.) *)
Theorem extract_input_windows_nonpositive {F : Type} (inputs : tensor F)
        (batch_size input_size window_size : Z) :
  (window_size <= 0)%Z ->
  exists op,
    extract_input_windows inputs batch_size input_size window_size
    = Raise (TFError op).
Proof.
  intros Hw. unfold extract_input_windows, tf.expand_dims.
  assert (Hax : norm_axis (S (rank inputs)) (-1) = Some (rank inputs)).
  { unfold norm_axis. change (-1 <? 0)%Z with true. cbv iota.
    destruct (Z.leb_spec 0 (-1 + Z.of_nat (S (rank inputs)))); [|lia].
    destruct (Z.ltb_spec (-1 + Z.of_nat (S (rank inputs)))
                         (Z.of_nat (S (rank inputs)))); [|lia].
    cbn [andb]. f_equal. lia. }
  rewrite Hax. cbn [bind]. unfold tf.extract_image_patches. cbn [dims].
  destruct (firstn (rank inputs) (dims inputs) ++ 1 :: skipn (rank inputs) (dims inputs))
    as [|b [|r [|c [|d [|x l]]]]]; cbn [bind]; try (eexists; reflexivity).
  destruct (Z.ltb_spec window_size 1); [|lia]. cbn [orb bind].
  eexists; reflexivity.
Qed.

Lemma extract_input_windows_nonpositive_witness :
  exists op,
    extract_input_windows (Tensor [1; 1; 1] (fun _ => 0%R)) 1 1 0
    = Raise (TFError op).
Proof.
  apply (@extract_input_windows_nonpositive R (Tensor [1; 1; 1] (fun _ => 0%R))
           1 1 0).
  lia.
Defined.

(** With [window_size = 0] the error is the one of
    [tf.extract_image_patches], not a [ValueError] of the module. *)
Lemma extract_input_windows_zero_window :
  extract_input_windows (Tensor [1; 1; 1] (fun _ => 0%R)) 1 1 0
  = Raise (TFError "ExtractImagePatches") /\
  forall msg,
    extract_input_windows (Tensor [1; 1; 1] (fun _ => 0%R)) 1 1 0
    <> Raise (ValueError msg).
Proof.
  assert (H : extract_input_windows (Tensor [1; 1; 1] (fun _ => 0%R)) 1 1 0
              = Raise (TFError "ExtractImagePatches")) by reflexivity.
  split; [exact H|]. intros msg. rewrite H. discriminate.
Qed.

(** *** C7: the mode is checked first *)

(** C7: for a mode other than ['train'], ['eval'] and ['generate'],
    [build_graph] raises the [ValueError] of its first statement; nothing has
    been logged, no graph has been created, and no graph is returned. *)
Theorem build_graph_invalid_mode {F : Type} {SF : Scalar F} (rt : Runtime)
        (mode : string) (config : Config)
        (paths : option (list string)) (feeds : Feeds) :
  mode <> "train"%string -> mode <> "eval"%string -> mode <> "generate"%string ->
  build_graph rt mode config paths feeds
  = ([], Raise (ValueError
                  ("The mode parameter must be 'train', 'eval', or 'generate'. "
                   ++ "The mode parameter was: " ++ mode)%string)).
Proof.
  intros Ht He Hg. unfold build_graph, py_in. cbn [existsb].
  apply String.eqb_neq in Ht, He, Hg. rewrite Ht, He, Hg. reflexivity.
Qed.

Lemma build_graph_invalid_mode_witness :
  build_graph example_runtime "predict" example_config None example_feeds
  = ([], Raise (ValueError
                  ("The mode parameter must be 'train', 'eval', or 'generate'. "
                   ++ "The mode parameter was: " ++ "predict")%string)).
Proof.
  apply (@build_graph_invalid_mode R Scalar_R example_runtime "predict"
           example_config None example_feeds); discriminate.
Defined.

(** *** C8: the temperature *)

(** C8 (amended): for logits of shape [B * S, C] the output of generate mode
    is [softmax(logits / temperature)] along the classes, for every fed
    temperature: the temperature is not checked, and a temperature [<= 0] is
    divided by like any other. *)
Theorem generate_softmax_temperature {F : Type} {SF : Scalar F}
        (logits temperature : tensor F) (B S C : nat) :
  dims logits = [B * S; C] -> 0 < B -> 0 < C ->
  exists sm,
    generate_softmax logits temperature (Z.of_nat B) (Z.of_nat C) = Ok sm /\
    dims sm = [B; S; C] /\
    forall b t c, b < B -> t < S -> c < C ->
      get sm [b; t; c]
      = fdiv (fexp (fdiv (get logits [b * S + t; c]) (item temperature)))
             (tf.fsum C (fun k =>
                fexp (fdiv (get logits [b * S + t; k]) (item temperature)))).
Proof.
  intros Hd HB HC. unfold generate_softmax, tf.fill. cbn [existsb].
  destruct (Z.ltb_spec (Z.of_nat C) 0); [lia|]. cbn [orb bind map].
  unfold tf.div, tf.broadcast2, rank. cbn [dims]. rewrite Hd, Nat2Z.id.
  cbn [length Nat.sub skipn]. rewrite shape_eqb_refl. cbn [bind].
  unfold tf.reshape. cbn [dims tf.nn.softmax].
  pose proof (@infer_shape_wildcard (numel [B * S; C]) S [B] [C]) as Hi.
  cbn [map app] in Hi. rewrite Hi; clear Hi.
  - eexists. split; [reflexivity|]. split; [reflexivity|].
    intros b t c Hb Ht Hc. cbn [get].
    replace (ravel [B; S; C] [b; t; c]) with (ravel [B * S; C] [b * S + t; c])
      by (cbn; ring).
    rewrite unravel_ravel by (cbn; repeat split; try lia; nia).
    cbn [skipn removelast app last]. reflexivity.
  - cbn. lia.
  - cbn. lia.
  - cbn. ring.
Qed.

Lemma generate_softmax_temperature_witness :
  exists sm,
    generate_softmax (Tensor [1 * 1; 2] (fun _ => 0%R)) (scalar_tensor 2%R) 1 2
    = Ok sm /\
    dims sm = [1; 1; 2] /\
    forall b t c, b < 1 -> t < 1 -> c < 2 ->
      get sm [b; t; c]
      = (exp (0 / 2) / tf.fsum 2 (fun k => exp (0 / 2)))%R.
Proof.
  apply (@generate_softmax_temperature R Scalar_R
           (Tensor [1 * 1; 2] (fun _ => 0%R)) (scalar_tensor 2%R) 1 1 2).
  - reflexivity.
  - lia.
  - lia.
Defined.

(** A temperature of [-1] is accepted: the output is the softmax of the
    negated logits. *)
Lemma generate_softmax_negative_temperature :
  (-1 <= 0)%R /\
  exists sm,
    generate_softmax (Tensor [1; 2] (fun _ => 0%R)) (scalar_tensor (-1)%R) 1 2
    = Ok sm /\
    get sm [0; 0; 0] = (1 / 2)%R.
Proof.
  split; [lra|].
  eexists. split; [reflexivity|].
  cbn [get]. unfold tf.fsum. cbn.
  replace (0 / -1)%R with 0%R by (unfold Rdiv; lra).
  rewrite exp_0. lra.
Qed.

(** *** C5: accuracy decomposition *)

Lemma fsum_plus_R (n : nat) (f g : nat -> R) :
  tf.fsum n (fun k => (f k + g k)%R) = (tf.fsum n f + tf.fsum n g)%R.
Proof.
  induction n as [|n IH]; [cbn; lra|]. rewrite !fsum_S_R, IH. lra.
Qed.

Lemma fsum_nonneg_R (n : nat) (f : nat -> R) :
  (forall k, (0 <= f k)%R) -> (0 <= tf.fsum n f)%R.
Proof.
  intros H. induction n as [|n IH]; [cbn; lra|].
  rewrite fsum_S_R. specialize (H n). lra.
Qed.

Lemma fsum_pos_exists_R (n : nat) (f : nat -> R) :
  (forall k, (0 <= f k)%R) -> (exists k, k < n /\ (0 < f k)%R) ->
  (0 < tf.fsum n f)%R.
Proof.
  intros H (k & Hk & Hpos). induction n as [|n IH]; [lia|].
  rewrite fsum_S_R. pose proof (fsum_nonneg_R n f H) as Hn.
  destruct (Nat.eq_dec k n) as [->|Hne]; [lra|].
  pose proof (H n). assert (k < n) by lia. specialize (IH ltac:(assumption)). lra.
Qed.

Lemma of_nat_fsum_R (n : nat) : tf.of_nat n = tf.fsum n (fun _ => 1%R).
Proof.
  induction n as [|n IH]; [reflexivity|]. rewrite fsum_S_R, <- IH. reflexivity.
Qed.

Lemma reduce_sum_vector {F : Type} {SF : Scalar F} (t : tensor F) (N : nat) :
  dims t = [N] ->
  item (tf.reduce_sum t) = tf.fsum N (fun n => get t [n]).
Proof.
  intros Hd. unfold tf.reduce_sum, item, scalar_tensor. cbn [get].
  rewrite Hd. cbn [numel fold_right unravel]. rewrite Nat.mul_1_r.
  apply fsum_ext. intros k _. rewrite Nat.div_1_r. reflexivity.
Qed.



(** *** C6: generate mode does not depend on the random draws *)

Lemma fold_left_ext_eq {A B} (f g : A -> B -> A) (l : list B) (a : A) :
  (forall x y, f x y = g x y) -> fold_left f l a = fold_left g l a.
Proof.
  intros H. revert a. induction l as [|y l IH]; intros a; [reflexivity|].
  cbn. rewrite H. apply IH.
Qed.

Lemma DropoutWrapper_keep_all {F : Type} {SF : Scalar F} (cell : RNNCell F)
      (u u' : nat -> list nat -> F) :
  fltb fone fone = false ->
  tf.contrib.rnn.DropoutWrapper cell fone u
  = tf.contrib.rnn.DropoutWrapper cell fone u'.
Proof.
  intros H. unfold tf.contrib.rnn.DropoutWrapper. rewrite H. reflexivity.
Qed.

Lemma Rltb_irrefl (x : R) : Rltb x x = false.
Proof. unfold Rltb. destruct (Rlt_dec x x); [lra | reflexivity]. Qed.

(** C6: in generate mode the built graph is the same whatever the random
    draws of the dropout ops and whatever the dataset source: with the same
    fed input buffer, past labels, past encodings, state, inputs and
    temperature (and the same variables), the softmax and every other tensor
    of the graph are identical.  The keep probability passed to the cell is
    1.0 in this mode, for which the dropout wrapper leaves the output as it
    is ([1.0 < 1] is false). *)
Theorem generate_mode_deterministic {F : Type} {SF : Scalar F} (rt : Runtime)
        (u : nat -> nat -> list nat -> F)
        (batch : option (list string) -> Z -> Z -> bool ->
                 result (tensor F * tensor Z * tensor Z))
        (config : Config) (paths : option (list string)) (feeds : Feeds) :
  fltb fone fone = false ->
  build_graph (with_draws rt u batch) "generate" config paths feeds
  = build_graph rt "generate" config paths feeds.
Proof.
  intros H1.
  assert (Hcell : forall sizes a,
            make_rnn_cell (with_draws rt u batch) sizes fone a (BasicLSTMCell rt)
            = make_rnn_cell rt sizes fone a (BasicLSTMCell rt)).
  { intros sizes a. unfold make_rnn_cell. f_equal.
    apply fold_left_ext_eq. intros cells num_units. f_equal. f_equal.
    apply DropoutWrapper_keep_all. exact H1. }
  assert (Hrec : forall lens ci,
            recurrent (with_draws rt u batch) "generate" config feeds lens ci
            = recurrent rt "generate" config feeds lens ci).
  { intros lens ci. unfold recurrent.
    change ("generate" =? "generate")%string with true. cbv iota.
    change (BasicLSTMCell (with_draws rt u batch)) with (BasicLSTMCell rt).
    rewrite Hcell. reflexivity. }
  unfold build_graph. f_equal. unfold graph_body.
  change (mode_inputs (with_draws rt u batch) "generate" config paths feeds)
    with (mode_inputs rt "generate" config paths feeds).
  destruct (mode_inputs rt "generate" config paths feeds) as [m|e];
    [|reflexivity].
  cbn [bind].
  change (features (with_draws rt u batch) config m) with (features rt config m).
  destruct (features rt config m) as [f|e]; [|reflexivity].
  cbn [bind]. rewrite Hrec. reflexivity.
Qed.

Lemma generate_mode_deterministic_witness :
  build_graph (with_draws example_runtime (fun _ _ _ => (1 / 2)%R)
                          (fun _ _ _ _ => Raise (TFError "queue")))
              "generate" example_config None example_feeds
  = build_graph example_runtime "generate" example_config None example_feeds.
Proof.
  apply (@generate_mode_deterministic R Scalar_R example_runtime
           (fun _ _ _ => (1 / 2)%R) (fun _ _ _ _ => Raise (TFError "queue"))
           example_config None example_feeds).
  apply Rltb_irrefl.
Defined.

(** Below a keep probability of 1 the output of the wrapped cell does depend
    on the draws. *)
Lemma DropoutWrapper_draws_matter :
  let cell := {| state_len := 0; output_size := 1; zero_state := fun _ => [];
                 call := fun _ (x : tensor R) _ => Ok (x, []) |} in
  let x := Tensor [1] (fun _ => 1%R) in
  exists o1 o2,
    call (tf.contrib.rnn.DropoutWrapper cell (1 / 2)%R (fun _ _ => 0%R)) 0 x []
    = Ok (o1, []) /\
    call (tf.contrib.rnn.DropoutWrapper cell (1 / 2)%R (fun _ _ => (1 / 2)%R)) 0 x []
    = Ok (o2, []) /\
    get o1 [0] = 0%R /\ get o2 [0] = 2%R.
Proof.
  intros cell x.
  assert (Hlt : fltb (1 / 2)%R fone = true).
  { cbn. unfold Rltb. destruct (Rlt_dec (1 / 2) 1); [reflexivity | lra]. }
  unfold tf.contrib.rnn.DropoutWrapper. cbn [call]. rewrite Hlt.
  eexists. eexists. split; [reflexivity|]. split; [reflexivity|].
  cbn. split.
  - rewrite <- (Int_part_spec (1 / 2 + 0) 0) by (cbn; lra). lra.
  - rewrite <- (Int_part_spec (1 / 2 + 1 / 2) 1) by (cbn; lra). lra.
Qed.

(** *** C10: no label leakage in train and eval modes *)

Section TrainEvalFacts.
Context {F : Type} {SF : Scalar F}.

Lemma zeros_ok (sh : list nat) :
  tf.zeros (map Z.of_nat sh) = Ok (Tensor sh (fun _ => (fzero : F))).
Proof.
  unfold tf.zeros.
  assert (Hex : existsb (fun d => (d <? 0)%Z) (map Z.of_nat sh) = false).
  { induction sh as [|d sh IH]; [reflexivity|]. cbn.
    destruct (Z.ltb_spec (Z.of_nat d) 0); [lia | exact IH]. }
  rewrite Hex. do 2 f_equal. rewrite map_map. rewrite <- (map_id sh) at 2.
  apply map_ext. intros d. apply Nat2Z.id.
Qed.

Lemma concat_axis2_ok (a b : tensor F) (B T n1 n2 : nat) :
  dims a = [B; T; n1] -> dims b = [B; T; n2] ->
  exists c, tf.concat a b 2 = Ok c /\ dims c = [B; T; n1 + n2].
Proof.
  intros Ha Hb. unfold tf.concat, rank. rewrite Ha, Hb.
  change (norm_axis (length [B; T; n1]) 2) with (Some 2).
  cbn [replace_nth nth]. rewrite shape_eqb_refl.
  eexists. split; reflexivity.
Qed.

Lemma encode_input_windows_ok (rt : Runtime) (windows : tensor F)
      (B T s w E : nat) :
  dims windows = [B; T; s; w] -> 0 < B -> 0 < s -> 0 < w -> 0 < E ->
  exists enc,
    encode_input_windows rt windows (Z.of_nat B) (Z.of_nat s) (Z.of_nat w)
                         (Z.of_nat E) = Ok enc /\
    dims enc = [B; T; E].
Proof.
  intros Hd HB Hs Hw HE. unfold encode_input_windows, tf.reshape. rewrite Hd.
  rewrite <- Nat2Z.inj_mul.
  pose proof (@infer_shape_wildcard (numel [B; T; s; w]) T [B] [s * w; 1]) as Hi.
  cbn [map app] in Hi. change (Z.of_nat 1) with 1%Z in Hi.
  rewrite Hi; clear Hi; [| cbn; lia | cbn; nia | cbn; ring].
  cbn [bind]. unfold tf.contrib.layers.conv2d. cbn [dims].
  change (1 <? 1)%Z with false.
  destruct (Z.ltb_spec (Z.of_nat (s * w)) 1); [nia|].
  destruct (Z.ltb_spec (Z.of_nat E) 1); [lia|]. cbn [orb].
  change (Z.to_nat 1) with 1. rewrite !Nat2Z.id.
  destruct (Nat.ltb_spec (T + 1) 1); [lia|].
  destruct (Nat.ltb_spec (s * w + 1) (s * w)); [lia|]. cbn [orb bind].
  unfold tf.squeeze, rank. cbn [dims].
  change (norm_axis (length [B; T + 1 - 1; s * w + 1 - s * w; E]) 2)
    with (Some 2).
  cbn [nth]. replace (s * w + 1 - s * w) with 1 by lia. cbn [Nat.eqb].
  eexists. split; [reflexivity|]. cbn. f_equal. f_equal. lia.
Qed.

Lemma features_ok (rt : Runtime) (config : Config) (x buffer past : tensor F)
      (B T P s w E C : nat) :
  batch_size (hparams config) = Z.of_nat B ->
  window_size (hparams config) = Z.of_nat w ->
  encoding_size (hparams config) = Z.of_nat E ->
  input_size (encoder_decoder config) = Z.of_nat s ->
  num_classes (encoder_decoder config) = Z.of_nat C ->
  dims x = [B; T; s] -> dims buffer = [B; w - 1; s] -> dims past = [B; P; E] ->
  0 < B -> 0 < s -> 0 < w -> 0 < E -> 0 < T ->
  exists sim,
    dims sim = [B; T; P + (T - 1)] /\
    forall (lbls : tensor Z) (lens : option (tensor Z)) (tl : tensor Z),
      dims tl = [B; P + (T - 1)] ->
      exists f,
        features rt config
          {| inputs := x; labels := lbls; lengths := lens;
             input_buffer := buffer; past_encodings := past;
             target_labels := tl |} = Ok f /\
        self_similarity f = sim /\
        dims (attention_inputs f) = [B; T; C] /\
        dims (combined_inputs f) = [B; T; s + C] /\
        forall b i c, i < T ->
          get (attention_inputs f) [b; i; c] =
          tf.fsum (P + (T - 1)) (fun k =>
            fmul (attention_row
                    (clamp_index (P + (T - 1))
                                 (aligned_position T (P + (T - 1)) i))
                    (fun k' => get sim [b; i; k']) k)
                 (if (get tl [b; k] =? Z.of_nat c)%Z then fone else fzero)).
Proof.
  intros Hbs Hws Hes His Hnc Hd Hdb Hdp HB Hs Hw HE HT.
  destruct (@concat_axis1_ok F buffer x B (w - 1) T s Hdb Hd)
    as (padded & Hpad & Hdpad & _).
  destruct (@extract_input_windows_ok F padded B T s w Hdpad HB Hs Hw)
    as (windows & Hwin & Hdw & _).
  destruct (@encode_input_windows_ok rt windows B T s w E Hdw HB Hs Hw HE)
    as (enc & Henc & Hde).
  assert (Hsim : exists targets sim,
            self_similarity_of enc past = Ok (targets, sim) /\
            dims sim = [B; T; P + (T - 1)]).
  { unfold self_similarity_of.
    match goal with
    | |- context [tf.concat past ?sl 1] =>
        destruct (@concat_axis1_ok F past sl B P (T - 1) E Hdp)
          as (targets & -> & Hdt & _)
    end.
    { cbn. rewrite Hde. cbn. rewrite clamp_index_minus_one.
      f_equal; [lia | f_equal; [lia | f_equal; lia]]. }
    cbn [bind].
    destruct (matmul_transpose_b_ok enc targets Hde Hdt) as (sim & -> & Hds & _).
    cbn [bind]. exists targets, sim. split; [reflexivity | exact Hds]. }
  destruct Hsim as (targets & sim & Hsim & Hds).
  exists sim. split; [exact Hds|].
  intros lbls lens tl Htl. unfold features.
  cbn [inputs input_buffer past_encodings target_labels].
  rewrite Hbs, Hws, Hes, His, Hnc, Hpad. cbn [bind].
  rewrite Hwin. cbn [bind]. rewrite Henc. cbn [bind]. rewrite Hsim. cbn [bind].
  destruct (@similarity_weighted_attention_ok F SF tl sim (Z.of_nat C) B T
              (P + (T - 1)) Hds Htl HT) as (att & -> & Hda & Hg); [lia|].
  cbn [bind]. rewrite Nat2Z.id in Hda.
  destruct (@concat_axis2_ok x att B T s C Hd Hda) as (comb & -> & Hdc).
  cbn [bind]. eexists. split; [reflexivity|].
  cbn [self_similarity attention_inputs combined_inputs].
  split; [reflexivity|]. split; [exact Hda|]. split; [exact Hdc | exact Hg].
Qed.

Lemma mode_inputs_train_ok (rt : Runtime) (mode : string) (config : Config)
      (paths : option (list string)) (feeds : Feeds)
      (x : tensor F) (lbls lens : tensor Z) (B s w E : nat) :
  mode = "train"%string \/ mode = "eval"%string ->
  batch_size (hparams config) = Z.of_nat B ->
  window_size (hparams config) = Z.of_nat w ->
  encoding_size (hparams config) = Z.of_nat E ->
  input_size (encoder_decoder config) = Z.of_nat s ->
  1 <= w ->
  mode_inputs (with_draws rt (random_uniform rt)
                          (fun _ _ _ _ => Ok (x, lbls, lens)))
              mode config paths feeds
  = Ok {| inputs := x; labels := lbls; lengths := Some lens;
          input_buffer := Tensor [B; w - 1; s] (fun _ => fzero);
          past_encodings := Tensor [B; 0; E] (fun _ => fzero);
          target_labels := getitem lbls [(None, None); (None, Some (-1)%Z)] |}.
Proof.
  intros Hm Hbs Hws Hes His Hw. unfold mode_inputs.
  assert (Hmode : ((mode =? "train") || (mode =? "eval"))%string = true)
    by (destruct Hm as [-> | ->]; reflexivity).
  rewrite Hmode, Hbs, Hws, Hes, His. cbn [get_padded_batch with_draws bind].
  replace (Z.of_nat w - 1)%Z with (Z.of_nat (w - 1)) by lia.
  change [Z.of_nat B; Z.of_nat (w - 1); Z.of_nat s]
    with (map Z.of_nat [B; w - 1; s]).
  change [Z.of_nat B; 0%Z; Z.of_nat E] with (map Z.of_nat [B; 0; E]).
  rewrite !zeros_ok. reflexivity.
Qed.

Lemma graph_body_features (rt : Runtime) (mode : string) (config : Config)
      (paths : option (list string)) (feeds : Feeds) (g : Graph) :
  graph_body rt mode config paths feeds = Ok g ->
  (m <- mode_inputs rt mode config paths feeds ;; features rt config m)
  = Ok (graph_features g).
Proof.
  unfold graph_body.
  destruct (mode_inputs rt mode config paths feeds) as [m|e]; [|discriminate].
  cbn [bind].
  destruct (features rt config m) as [f|e]; [|discriminate]. cbn [bind].
  destruct (recurrent rt mode config feeds (lengths m) (combined_inputs f))
    as [r|e]; [|discriminate].
  cbn [bind].
  destruct ((mode =? "train") || (mode =? "eval"))%string.
  - destruct (flatten_maybe_padded_sequences rt (labels m) (lengths m))
      as [lf|e]; [|discriminate].
    cbn [bind].
    destruct (tf.nn.sparse_softmax_cross_entropy_with_logits lf (logits_flat r))
      as [sce|e]; [|discriminate].
    cbn [bind]. destruct (mode =? "train")%string.
    + destruct (train_metrics sce _) as [mt|e]; [|discriminate].
      cbn [bind]. intros [= <-]. reflexivity.
    + intros [= <-]. reflexivity.
  - destruct (mode =? "generate")%string.
    + destruct (tf.placeholder (fed_temperature feeds) []) as [t|e];
        [|discriminate].
      cbn [bind].
      destruct (generate_softmax _ _ _ _) as [sm|e]; [|discriminate].
      cbn [bind]. intros [= <-]. reflexivity.
    + intros [= <-]. reflexivity.
Qed.

End TrainEvalFacts.

(** C10: in train and eval modes, with a batch of inputs [B, T, s] and labels
    [B, T] from the dataset, there are [T] query steps and [T - 1] key steps,
    the aligned position of step [i] is [i], and the attention feature of
    step [i] is the same for two label tensors that agree on the positions
    below [i]: lines 184-229 succeed on both and produce features of shape
    [B, T, num_classes] with the same row [(b, i)]; so do any two graphs
    built from the two batches.  The scalar type only has to satisfy
    [0 * 1 = 0 * 0]. *)
Theorem train_eval_no_label_leakage {F : Type} {SF : Scalar F} (rt : Runtime)
        (mode : string) (config : Config) (paths : option (list string))
        (feeds : Feeds) (x : tensor F) (labels1 labels2 lens : tensor Z)
        (B T s w E C b i : nat) :
  fmul fzero fone = fmul fzero fzero ->
  mode = "train"%string \/ mode = "eval"%string ->
  batch_size (hparams config) = Z.of_nat B ->
  window_size (hparams config) = Z.of_nat w ->
  encoding_size (hparams config) = Z.of_nat E ->
  input_size (encoder_decoder config) = Z.of_nat s ->
  num_classes (encoder_decoder config) = Z.of_nat C ->
  dims x = [B; T; s] -> dims labels1 = [B; T] -> dims labels2 = [B; T] ->
  0 < B -> 0 < s -> 1 <= w -> 0 < E -> b < B -> i < T ->
  (forall j, j < i -> get labels1 [b; j] = get labels2 [b; j]) ->
  aligned_position T (T - 1) i = Z.of_nat i /\
  (exists f1 f2,
     features_of_batch rt mode config paths feeds x labels1 lens = Ok f1 /\
     features_of_batch rt mode config paths feeds x labels2 lens = Ok f2 /\
     dims (self_similarity f1) = [B; T; T - 1] /\
     dims (attention_inputs f1) = [B; T; C] /\
     dims (attention_inputs f2) = [B; T; C] /\
     forall c, c < C ->
       get (attention_inputs f1) [b; i; c] = get (attention_inputs f2) [b; i; c]) /\
  (forall ev1 ev2 g1 g2,
     build_graph (with_draws rt (random_uniform rt)
                             (fun _ _ _ _ => Ok (x, labels1, lens)))
                 mode config paths feeds = (ev1, Ok g1) ->
     build_graph (with_draws rt (random_uniform rt)
                             (fun _ _ _ _ => Ok (x, labels2, lens)))
                 mode config paths feeds = (ev2, Ok g2) ->
     forall c, c < C ->
       get (attention_inputs (graph_features g1)) [b; i; c]
       = get (attention_inputs (graph_features g2)) [b; i; c]).
Proof.
  intros M Hm Hbs Hws Hes His Hnc Hd Hl1 Hl2 HB Hs Hw HE Hb Hi Hagree.
  assert (Hp : aligned_position T (T - 1) i = Z.of_nat i)
    by (unfold aligned_position; lia).
  destruct (@features_ok F SF rt config x
              (Tensor [B; w - 1; s] (fun _ => fzero))
              (Tensor [B; 0; E] (fun _ => fzero)) B T 0 s w E C
              Hbs Hws Hes His Hnc Hd eq_refl eq_refl HB Hs)
    as (sim & Hds & Hf); try lia.
  cbn [Nat.add] in Hds, Hf.
  assert (Htl : forall l : tensor Z, dims l = [B; T] ->
            dims (getitem l [(None, None); (None, Some (-1)%Z)]) = [B; T - 1]).
  { intros l Hl. cbn. rewrite Hl. cbn. rewrite clamp_index_minus_one.
    f_equal; [lia | f_equal; lia]. }
  destruct (Hf labels1 (Some lens) _ (Htl _ Hl1))
    as (f1 & Hf1 & Hs1 & Hd1 & _ & Hg1).
  destruct (Hf labels2 (Some lens) _ (Htl _ Hl2))
    as (f2 & Hf2 & _ & Hd2 & _ & Hg2).
  assert (Hrun1 : features_of_batch rt mode config paths feeds x labels1 lens
                  = Ok f1).
  { unfold features_of_batch.
    rewrite (@mode_inputs_train_ok F SF rt mode config paths feeds x labels1 lens
               B s w E Hm Hbs Hws Hes His Hw).
    cbn [bind]. exact Hf1. }
  assert (Hrun2 : features_of_batch rt mode config paths feeds x labels2 lens
                  = Ok f2).
  { unfold features_of_batch.
    rewrite (@mode_inputs_train_ok F SF rt mode config paths feeds x labels2 lens
               B s w E Hm Hbs Hws Hes His Hw).
    cbn [bind]. exact Hf2. }
  assert (Heq : forall c, c < C ->
            get (attention_inputs f1) [b; i; c]
            = get (attention_inputs f2) [b; i; c]).
  { intros c _. rewrite (Hg1 b i c Hi), (Hg2 b i c Hi). apply fsum_ext.
    intros k Hk. rewrite Hp, clamp_index_nonneg by lia. rewrite Nat2Z.id.
    unfold attention_row. cbn [getitem get]. rewrite Hl1, Hl2.
    cbn [slice_index slice_begin fst Nat.add].
    destruct (Nat.ltb_spec k i) as [Hlt|Hge].
    - rewrite (Hagree k Hlt). reflexivity.
    - destruct (_ =? _)%Z, (_ =? _)%Z; congruence. }
  split; [exact Hp|]. split.
  - exists f1, f2. rewrite Hs1. repeat split; assumption.
  - intros ev1 ev2 g1 g2 H1 H2 c Hc.
    unfold build_graph in H1, H2.
    destruct (negb (py_in mode ["train"; "eval"; "generate"]%string));
      [discriminate|].
    injection H1 as _ H1. injection H2 as _ H2.
    apply graph_body_features in H1, H2.
    unfold features_of_batch in Hrun1, Hrun2.
    rewrite Hrun1 in H1. rewrite Hrun2 in H2.
    injection H1 as <-. injection H2 as <-. apply Heq. exact Hc.
Qed.

Lemma train_eval_no_label_leakage_witness :
  let x := Tensor [1; 2; 1] (fun _ => 0%R) in
  let labels1 := Tensor [1; 2] (fun idx => Z.of_nat (nth 1 idx 0)) in
  let labels2 := Tensor [1; 2] (fun _ => 0%Z) in
  let lens := Tensor [1] (fun _ => 2%Z) in
  aligned_position 2 (2 - 1) 1 = Z.of_nat 1 /\
  (exists f1 f2,
     features_of_batch example_runtime "train" example_config None
                       example_feeds x labels1 lens = Ok f1 /\
     features_of_batch example_runtime "train" example_config None
                       example_feeds x labels2 lens = Ok f2 /\
     dims (self_similarity f1) = [1; 2; 2 - 1] /\
     dims (attention_inputs f1) = [1; 2; 2] /\
     dims (attention_inputs f2) = [1; 2; 2] /\
     forall c, c < 2 ->
       get (attention_inputs f1) [0; 1; c] = get (attention_inputs f2) [0; 1; c]) /\
  (forall ev1 ev2 g1 g2,
     build_graph (with_draws example_runtime (random_uniform example_runtime)
                             (fun _ _ _ _ => Ok (x, labels1, lens)))
                 "train" example_config None example_feeds = (ev1, Ok g1) ->
     build_graph (with_draws example_runtime (random_uniform example_runtime)
                             (fun _ _ _ _ => Ok (x, labels2, lens)))
                 "train" example_config None example_feeds = (ev2, Ok g2) ->
     forall c, c < 2 ->
       get (attention_inputs (graph_features g1)) [0; 1; c]
       = get (attention_inputs (graph_features g2)) [0; 1; c]).
Proof.
  intros x labels1 labels2 lens.
  apply (@train_eval_no_label_leakage R Scalar_R example_runtime "train"
           example_config None example_feeds x labels1 labels2 lens
           1 2 1 2 1 2 0 1).
  - cbn. lra.
  - left. reflexivity.
  - reflexivity.
  - reflexivity.
  - reflexivity.
  - reflexivity.
  - reflexivity.
  - reflexivity.
  - reflexivity.
  - reflexivity.
  - lia.
  - lia.
  - lia.
  - lia.
  - lia.
  - lia.
  - intros j Hj. assert (j = 0) as -> by lia. reflexivity.
Defined.


(** *** The example graphs are built *)

Lemma mode_inputs_generate_ok {F : Type} {SF : Scalar F} (rt : Runtime)
      (config : Config) (paths : option (list string)) (feeds : Feeds)
      (B T P K s w E : nat) :
  batch_size (hparams config) = Z.of_nat B ->
  window_size (hparams config) = Z.of_nat w ->
  encoding_size (hparams config) = Z.of_nat E ->
  input_size (encoder_decoder config) = Z.of_nat s ->
  1 <= w ->
  dims (fed_inputs feeds) = [B; T; s] ->
  dims (fed_input_buffer feeds) = [B; w - 1; s] ->
  dims (fed_labels feeds) = [B; K] ->
  dims (fed_past_encodings feeds) = [B; P; E] ->
  mode_inputs rt "generate" config paths feeds
  = Ok {| inputs := fed_inputs feeds; labels := fed_labels feeds;
          lengths := None; input_buffer := fed_input_buffer feeds;
          past_encodings := fed_past_encodings feeds;
          target_labels := fed_labels feeds |}.
Proof.
  intros Hbs Hws Hes His Hw Hx Hb Hl Hp. unfold mode_inputs, tf.placeholder.
  change (("generate" =? "train") || ("generate" =? "eval"))%string with false.
  change ("generate" =? "generate")%string with true.
  cbv iota. rewrite Hbs, Hws, Hes, His, Hx, Hb, Hl, Hp.
  replace (Z.of_nat w - 1)%Z with (Z.of_nat (w - 1)) by lia.
  cbn [length Nat.eqb combine forallb fst snd andb]. rewrite !Z.eqb_refl.
  reflexivity.
Qed.

Lemma recurrent_generate_example (feeds : Feeds) (ci : tensor R) :
  fed_initial_state feeds = None ->
  dims ci = [1; 1; 3] ->
  exists r,
    recurrent example_runtime "generate" example_config feeds None ci = Ok r /\
    dims (logits_flat r) = [1; 2] /\
    forall i c, get (logits_flat r) [i; c] = 0%R.
Proof.
  intros Hst Hd. destruct ci as [d g]. cbn [dims] in Hd. subst d.
  unfold recurrent, make_rnn_cell.
  cbn [hparams rnn_layer_sizes example_config fold_left attn_length
       encoder_decoder num_classes batch_size].
  change ("generate" =? "generate")%string with true. cbv iota.
  cbn [Z.eqb negb andb length app]. unfold tf.contrib.rnn.DropoutWrapper.
  change (fltb fone fone) with (Rltb 1 1). rewrite Rltb_irrefl.
  unfold tf.contrib.rnn.MultiRNNCell. cbn [bind]. rewrite Hst.
  eexists. split; [reflexivity|]. split; [reflexivity|].
  intros i c. cbn [logits_flat get].
  cbn [variables example_runtime fadd fmul Scalar_R].
  rewrite fsum_zero_R by (intros; apply Rmult_0_r). lra.
Qed.

(** In generate mode the example graph is built for every fed temperature,
    and its softmax is uniform over the two classes (all variables are 0). *)
Lemma build_graph_generate_example (temperature : R) :
  exists g sm,
    build_graph example_runtime "generate" example_config None
                (example_feeds_at temperature)
    = ([LoggingInfo "hparams = %s"; GraphCreated], Ok g) /\
    softmax g = Some sm /\
    dims sm = [1; 1; 2] /\
    forall c, c < 2 -> get sm [0; 0; c] = (1 / 2)%R.
Proof.
  unfold build_graph.
  change (negb (py_in "generate" ["train"; "eval"; "generate"]%string))
    with false.
  cbv iota. unfold graph_body.
  rewrite (@mode_inputs_generate_ok R Scalar_R example_runtime example_config
             None (example_feeds_at temperature) 1 1 0 0 1 2 1)
    by (reflexivity || lia).
  cbn [bind].
  destruct (@features_ok R Scalar_R example_runtime example_config
              (fed_inputs (example_feeds_at temperature))
              (fed_input_buffer (example_feeds_at temperature))
              (fed_past_encodings (example_feeds_at temperature))
              1 1 0 1 2 1 2) as (sim & _ & Hf); try reflexivity; try lia.
  destruct (Hf (fed_labels (example_feeds_at temperature)) None
               (fed_labels (example_feeds_at temperature)) eq_refl)
    as (f & -> & _ & _ & Hdc & _).
  cbn [bind lengths].
  destruct (@recurrent_generate_example (example_feeds_at temperature)
              (combined_inputs f) eq_refl Hdc) as (r & -> & Hdl & Hl).
  cbn [bind].
  change (("generate" =? "train") || ("generate" =? "eval"))%string with false.
  change ("generate" =? "generate")%string with true.
  cbv iota.
  change (tf.placeholder (fed_temperature (example_feeds_at temperature)) [])
    with (Ok (scalar_tensor temperature)).
  cbn [bind].
  destruct (logits_flat r) as [d l] eqn:El. cbn [dims get] in Hdl, Hl. subst d.
  eexists. eexists. split; [reflexivity|]. split; [reflexivity|].
  split; [reflexivity|].
  intros c Hc. cbn [get]. unfold tf.fsum.
  cbn [dims last seq map fold_right removelast app get skipn length Nat.sub
       unravel ravel numel Nat.mul Nat.add Nat.div Nat.modulo rank].
  cbn. rewrite !Hl.
  cbn [fadd fdiv fexp fzero Scalar_R].
  set (e := exp (0 / temperature)).
  assert (0 < e)%R by apply exp_pos. field. lra.
Qed.

Lemma Rltb_half_one : Rltb (1 / 2) 1 = true.
Proof. unfold Rltb. destruct (Rlt_dec (1 / 2) 1); [reflexivity | lra]. Qed.

Lemma recurrent_train_example (ci : tensor R) :
  dims ci = [1; 2; 3] ->
  exists r,
    recurrent example_runtime "train" example_config example_feeds
              (Some (Tensor [1] (fun _ => 2%Z))) ci = Ok r /\
    dims (logits_flat r) = [2; 2].
Proof.
  intros Hd. destruct ci as [d g]. cbn [dims] in Hd. subst d.
  unfold recurrent, make_rnn_cell.
  cbn [hparams rnn_layer_sizes example_config fold_left attn_length
       encoder_decoder num_classes batch_size dropout_keep_prob].
  change ("train" =? "generate")%string with false. cbv iota.
  cbn [Z.eqb negb andb length app]. unfold tf.contrib.rnn.DropoutWrapper.
  change (fltb (1 / 2)%R fone) with (Rltb (1 / 2) 1). rewrite Rltb_half_one.
  unfold tf.contrib.rnn.MultiRNNCell. cbn [bind].
  eexists. split; [reflexivity|]. reflexivity.
Qed.

(** In train mode the example graph is built, with its metrics. *)
Lemma build_graph_train_example :
  exists g m,
    build_graph example_runtime "train" example_config None example_feeds
    = ([LoggingInfo "hparams = %s"; GraphCreated], Ok g) /\
    graph_metrics g = Some m /\
    dims (attention_inputs (graph_features g)) = [1; 2; 2].
Proof.
  unfold build_graph.
  change (negb (py_in "train" ["train"; "eval"; "generate"]%string)) with false.
  cbv iota. unfold graph_body.
  change example_runtime
    with (with_draws example_runtime (random_uniform example_runtime)
            (fun _ _ _ _ =>
               Ok (Tensor [1; 2; 1] (fun _ => 0%R),
                   Tensor [1; 2] (fun idx => Z.of_nat (nth 1 idx 0)),
                   Tensor [1] (fun _ => 2%Z)))) at 1.
  rewrite (@mode_inputs_train_ok R Scalar_R example_runtime "train"
             example_config None example_feeds _ _ _ 1 1 2 1)
    by (reflexivity || lia || (left; reflexivity)).
  cbn [bind].
  destruct (@features_ok R Scalar_R example_runtime example_config
              (Tensor [1; 2; 1] (fun _ => 0%R))
              (Tensor [1; 2 - 1; 1] (fun _ => fzero))
              (Tensor [1; 0; 1] (fun _ => fzero))
              1 2 0 1 2 1 2) as (sim & _ & Hf); try reflexivity; try lia.
  match goal with
  | |- context [features _ _ {| inputs := _; labels := ?l; lengths := ?n;
                                input_buffer := _; past_encodings := _;
                                target_labels := ?t |}] =>
      destruct (Hf l n t eq_refl) as (f & -> & _ & Hda & Hdc & _)
  end.
  cbn [bind lengths labels].
  destruct (@recurrent_train_example (combined_inputs f) Hdc) as (r & -> & Hdl).
  cbn [bind].
  change (("train" =? "train") || ("train" =? "eval"))%string with true.
  cbv iota.
  destruct (logits_flat r) as [d l]. cbn [dims] in Hdl. subst d.
  eexists. eexists. split; [reflexivity|]. split; [reflexivity|]. exact Hda.
Qed.

(** The example graph of generate mode run with a temperature of [-1]. *)
Lemma generate_mode_negative_temperature :
  (-1 <= 0)%R /\
  exists g sm,
    build_graph example_runtime "generate" example_config None
                (example_feeds_at (-1))
    = ([LoggingInfo "hparams = %s"; GraphCreated], Ok g) /\
    softmax g = Some sm /\
    get sm [0; 0; 0] = (1 / 2)%R.
Proof.
  split; [lra|].
  destruct (build_graph_generate_example (-1)) as (g & sm & Hg & Hs & _ & Hv).
  exists g, sm. split; [exact Hg|]. split; [exact Hs|]. apply Hv. lia.
Qed.

(** * Further properties of the module *)

(** ** [make_rnn_cell] *)




(** ** Encodings *)

Section EncodingFacts.
Context {F : Type} {SF : Scalar F}.

Lemma fsum_one_ext (f g : nat -> F) : f 0 = g 0 -> tf.fsum 1 f = tf.fsum 1 g.
Proof. intros H. apply fsum_ext. intros k Hk. assert (k = 0) as -> by lia. exact H. Qed.

Lemma encode_input_windows_values (rt : Runtime) (windows : tensor F)
      (B T s w E : nat) :
  dims windows = [B; T; s; w] -> 0 < B -> 0 < s -> 0 < w -> 0 < E ->
  exists enc,
    encode_input_windows rt windows (Z.of_nat B) (Z.of_nat s) (Z.of_nat w)
                         (Z.of_nat E) = Ok enc /\
    dims enc = [B; T; E] /\
    forall b t e, b < B -> t < T ->
      get enc [b; t; e]
      = window_encoding (variables rt "Conv/weights") (variables rt "Conv/biases")
          (s * w) (fun m => get windows [b; t; m / w; m mod w]) e.
Proof.
  intros Hd HB Hs Hw HE. unfold encode_input_windows, tf.reshape. rewrite Hd.
  rewrite <- Nat2Z.inj_mul.
  pose proof (@infer_shape_wildcard (numel [B; T; s; w]) T [B] [s * w; 1]) as Hi.
  cbn [map app] in Hi. change (Z.of_nat 1) with 1%Z in Hi.
  rewrite Hi; clear Hi; [| cbn; lia | cbn; nia | cbn; ring].
  cbn [bind]. unfold tf.contrib.layers.conv2d. cbn [dims].
  change (1 <? 1)%Z with false.
  destruct (Z.ltb_spec (Z.of_nat (s * w)) 1); [nia|].
  destruct (Z.ltb_spec (Z.of_nat E) 1); [lia|]. cbn [orb].
  change (Z.to_nat 1) with 1. rewrite !Nat2Z.id.
  destruct (Nat.ltb_spec (T + 1) 1); [lia|].
  destruct (Nat.ltb_spec (s * w + 1) (s * w)); [lia|]. cbn [orb bind].
  unfold tf.squeeze, rank. cbn [dims].
  change (norm_axis (length [B; T + 1 - 1; s * w + 1 - s * w; E]) 2)
    with (Some 2).
  cbn [nth]. replace (s * w + 1 - s * w) with 1 by lia. cbn [Nat.eqb].
  eexists. split; [reflexivity|]. split; [cbn; f_equal; f_equal; lia|].
  intros b t e Hb Ht. cbn [get firstn skipn app]. unfold window_encoding.
  f_equal. f_equal. apply fsum_one_ext. apply fsum_ext. intros m Hm.
  apply fsum_one_ext. f_equal. cbn [get Nat.add]. rewrite Nat.add_0_r.
  replace (ravel [B; T; s * w; 1] [b; t; m; 0])
    with (ravel [B; T; s; w] [b; t; m / w; m mod w]).
  - rewrite unravel_ravel; [reflexivity|].
    cbn. repeat split; try lia.
    + apply Nat.Div0.div_lt_upper_bound. nia.
    + apply Nat.mod_upper_bound. lia.
  - cbn. pose proof (Nat.div_mod_eq m w). nia.
Qed.

End EncodingFacts.

Section FeatureValues.
Context {F : Type} {SF : Scalar F}.

Lemma window_encoding_ext (weights biases : list nat -> F) (n : nat)
      (row row' : nat -> F) (e : nat) :
  (forall m, m < n -> row m = row' m) ->
  window_encoding weights biases n row e = window_encoding weights biases n row' e.
Proof.
  intros H. unfold window_encoding. f_equal. f_equal. apply fsum_one_ext.
  apply fsum_ext. intros m Hm. apply fsum_one_ext. rewrite (H m Hm). reflexivity.
Qed.

Lemma concat_axis2_values (a b : tensor F) (B T n1 n2 : nat) :
  dims a = [B; T; n1] -> dims b = [B; T; n2] ->
  exists c,
    tf.concat a b 2 = Ok c /\ dims c = [B; T; n1 + n2] /\
    forall bi t f,
      get c [bi; t; f] = if f <? n1 then get a [bi; t; f] else get b [bi; t; f - n1].
Proof.
  intros Ha Hb. unfold tf.concat, rank. rewrite Ha, Hb.
  change (norm_axis (length [B; T; n1]) 2) with (Some 2).
  cbn [replace_nth nth]. rewrite shape_eqb_refl.
  eexists. split; [reflexivity|]. split; reflexivity.
Qed.

Lemma features_values (rt : Runtime) (config : Config) (x buffer past : tensor F)
      (B T P s w E C : nat) :
  batch_size (hparams config) = Z.of_nat B ->
  window_size (hparams config) = Z.of_nat w ->
  encoding_size (hparams config) = Z.of_nat E ->
  input_size (encoder_decoder config) = Z.of_nat s ->
  num_classes (encoder_decoder config) = Z.of_nat C ->
  dims x = [B; T; s] -> dims buffer = [B; w - 1; s] -> dims past = [B; P; E] ->
  0 < B -> 0 < s -> 0 < w -> 0 < E -> 0 < T ->
  exists enc sim,
    dims enc = [B; T; E] /\
    (forall b t e, b < B -> t < T ->
       get enc [b; t; e]
       = window_encoding (variables rt "Conv/weights") (variables rt "Conv/biases")
           (s * w) (fun m => padded_at (w - 1) buffer x b (t + m / s) (m mod s)) e) /\
    dims sim = [B; T; P + (T - 1)] /\
    (forall b i j,
       get sim [b; i; j]
       = tf.fsum E (fun e =>
           fmul (get enc [b; i; e])
                (if j <? P then get past [b; j; e] else get enc [b; j - P; e]))) /\
    forall (lbls : tensor Z) (lens : option (tensor Z)) (tl : tensor Z),
      dims tl = [B; P + (T - 1)] ->
      exists f,
        features rt config
          {| inputs := x; labels := lbls; lengths := lens;
             input_buffer := buffer; past_encodings := past;
             target_labels := tl |} = Ok f /\
        encodings f = enc /\
        self_similarity f = sim /\
        dims (attention_inputs f) = [B; T; C] /\
        dims (combined_inputs f) = [B; T; s + C] /\
        (forall b t k,
           get (combined_inputs f) [b; t; k]
           = if k <? s then get x [b; t; k]
             else get (attention_inputs f) [b; t; k - s]) /\
        forall b i c, i < T ->
          get (attention_inputs f) [b; i; c] =
          tf.fsum (P + (T - 1)) (fun k =>
            fmul (attention_row
                    (clamp_index (P + (T - 1))
                                 (aligned_position T (P + (T - 1)) i))
                    (fun k' => get sim [b; i; k']) k)
                 (if (get tl [b; k] =? Z.of_nat c)%Z then fone else fzero)).
Proof.
  intros Hbs Hws Hes His Hnc Hd Hdb Hdp HB Hs Hw HE HT.
  destruct (@concat_axis1_ok F buffer x B (w - 1) T s Hdb Hd)
    as (padded & Hpad & Hdpad & Hgpad).
  destruct (@extract_input_windows_ok F padded B T s w Hdpad HB Hs Hw)
    as (windows & Hwin & Hdw & Hgw).
  destruct (@encode_input_windows_values F SF rt windows B T s w E Hdw HB Hs Hw HE)
    as (enc & Henc & Hde & Hge).
  assert (Hsim : exists targets sim,
            self_similarity_of enc past = Ok (targets, sim) /\
            dims sim = [B; T; P + (T - 1)] /\
            forall b i j,
              get sim [b; i; j]
              = tf.fsum E (fun e =>
                  fmul (get enc [b; i; e])
                       (if j <? P then get past [b; j; e]
                        else get enc [b; j - P; e]))).
  { unfold self_similarity_of.
    match goal with
    | |- context [tf.concat past ?sl 1] =>
        destruct (@concat_axis1_ok F past sl B P (T - 1) E Hdp)
          as (targets & -> & Hdt & Hgt)
    end.
    { cbn. rewrite Hde. cbn. rewrite clamp_index_minus_one.
      f_equal; [lia | f_equal; [lia | f_equal; lia]]. }
    cbn [bind].
    destruct (matmul_transpose_b_ok enc targets Hde Hdt) as (sim & -> & Hds & Hgs).
    cbn [bind]. exists targets, sim. split; [reflexivity|]. split; [exact Hds|].
    intros b i j. rewrite Hgs. apply fsum_ext. intros e _. rewrite Hgt.
    destruct (j <? P); [reflexivity|]. cbn [getitem get]. rewrite Hde.
    reflexivity. }
  destruct Hsim as (targets & sim & Hsim & Hds & Hgs).
  exists enc, sim. split; [exact Hde|]. split.
  { intros b t e Hb Ht. rewrite (Hge b t e Hb Ht). apply window_encoding_ext.
    intros m Hm.
    assert (m / w < s) by (apply Nat.Div0.div_lt_upper_bound; nia).
    assert (m mod w < w) by (apply Nat.mod_upper_bound; lia).
    rewrite Hgw by assumption.
    replace (m / w * w + m mod w) with m
      by (pose proof (Nat.div_mod_eq m w); nia).
    rewrite Hgpad. reflexivity. }
  split; [exact Hds|]. split; [exact Hgs|].
  intros lbls lens tl Htl. unfold features.
  cbn [inputs input_buffer past_encodings target_labels].
  rewrite Hbs, Hws, Hes, His, Hnc, Hpad. cbn [bind].
  rewrite Hwin. cbn [bind]. rewrite Henc. cbn [bind]. rewrite Hsim. cbn [bind].
  destruct (@similarity_weighted_attention_ok F SF tl sim (Z.of_nat C) B T
              (P + (T - 1)) Hds Htl HT) as (att & -> & Hda & Hg); [lia|].
  cbn [bind]. rewrite Nat2Z.id in Hda.
  destruct (@concat_axis2_values x att B T s C Hd Hda) as (comb & -> & Hdc & Hgc).
  cbn [bind]. eexists. split; [reflexivity|].
  cbn [encodings self_similarity attention_inputs combined_inputs].
  repeat split; try reflexivity; assumption.
Qed.

End FeatureValues.

(** X2: the windows of a padded input of [w - 1 + T] steps, encoded: there
    are [T] encodings of [E] features, and the encoding of step [t] is one
    and the same layer (the same weights and biases for every batch row and
    every step) applied to the [w] padded steps [t, ..., t + w - 1] read
    feature by feature. *)
Theorem encodings_of_windows {F : Type} {SF : Scalar F} (rt : Runtime)
        (padded : tensor F) (B T s w E : nat) :
  dims padded = [B; w - 1 + T; s] -> 0 < B -> 0 < s -> 0 < w -> 0 < E ->
  exists windows enc,
    extract_input_windows padded (Z.of_nat B) (Z.of_nat s) (Z.of_nat w)
    = Ok windows /\
    encode_input_windows rt windows (Z.of_nat B) (Z.of_nat s) (Z.of_nat w)
                         (Z.of_nat E) = Ok enc /\
    dims enc = [B; T; E] /\
    forall b t e, b < B -> t < T ->
      get enc [b; t; e]
      = window_encoding (variables rt "Conv/weights") (variables rt "Conv/biases")
          (s * w) (fun m => get padded [b; t + m / s; m mod s]) e.
Proof.
  intros Hd HB Hs Hw HE.
  destruct (@extract_input_windows_ok F padded B T s w Hd HB Hs Hw)
    as (windows & Hwin & Hdw & Hgw).
  destruct (@encode_input_windows_values F SF rt windows B T s w E Hdw HB Hs Hw HE)
    as (enc & Henc & Hde & Hge).
  exists windows, enc. repeat split; try assumption.
  intros b t e Hb Ht. rewrite (Hge b t e Hb Ht). apply window_encoding_ext.
  intros m Hm.
  assert (m / w < s) by (apply Nat.Div0.div_lt_upper_bound; nia).
  assert (m mod w < w) by (apply Nat.mod_upper_bound; lia).
  rewrite Hgw by assumption.
  replace (m / w * w + m mod w) with m by (pose proof (Nat.div_mod_eq m w); nia).
  reflexivity.
Qed.

Lemma encodings_of_windows_witness :
  exists windows enc,
    extract_input_windows (Tensor [1; 3; 1] (fun _ => 1%R)) 1 1 2 = Ok windows /\
    encode_input_windows example_runtime windows 1 1 2 1 = Ok enc /\
    dims enc = [1; 2; 1] /\
    forall b t e, b < 1 -> t < 2 ->
      get enc [b; t; e]
      = window_encoding (variables example_runtime "Conv/weights")
          (variables example_runtime "Conv/biases") (1 * 2) (fun _ => 1%R) e.
Proof.
  apply (@encodings_of_windows R Scalar_R example_runtime
           (Tensor [1; 3; 1] (fun _ => 1%R)) 1 2 1 2 1);
    try reflexivity; lia.
Defined.

(** X3: the encoding of a step only reads its own window: when the [w] steps
    from [t'] on of one padded input are the [w] steps from [t] on of
    another (in batch row [b]), step [t'] of the first has the encoding of
    step [t] of the second.  In particular later inputs never change an
    earlier encoding. *)
Theorem encodings_follow_the_window {F : Type} {SF : Scalar F} (rt : Runtime)
        (padded padded' : tensor F) (B T T' s w E b t t' : nat) :
  dims padded = [B; w - 1 + T; s] -> dims padded' = [B; w - 1 + T'; s] ->
  0 < s -> 0 < w -> 0 < E -> b < B -> t < T -> t' < T' ->
  (forall j f, j < w -> f < s ->
     get padded' [b; t' + j; f] = get padded [b; t + j; f]) ->
  exists windows windows' enc enc',
    extract_input_windows padded (Z.of_nat B) (Z.of_nat s) (Z.of_nat w)
    = Ok windows /\
    extract_input_windows padded' (Z.of_nat B) (Z.of_nat s) (Z.of_nat w)
    = Ok windows' /\
    encode_input_windows rt windows (Z.of_nat B) (Z.of_nat s) (Z.of_nat w)
                         (Z.of_nat E) = Ok enc /\
    encode_input_windows rt windows' (Z.of_nat B) (Z.of_nat s) (Z.of_nat w)
                         (Z.of_nat E) = Ok enc' /\
    forall e, get enc' [b; t'; e] = get enc [b; t; e].
Proof.
  intros Hd Hd' Hs Hw HE Hb Ht Ht' Hsame.
  assert (HB : 0 < B) by lia.
  destruct (@extract_input_windows_ok F padded B T s w Hd HB Hs Hw)
    as (windows & Hwin & Hdw & Hgw).
  destruct (@extract_input_windows_ok F padded' B T' s w Hd' HB Hs Hw)
    as (windows' & Hwin' & Hdw' & Hgw').
  destruct (@encode_input_windows_values F SF rt windows B T s w E Hdw HB Hs Hw HE)
    as (enc & Henc & _ & Hge).
  destruct (@encode_input_windows_values F SF rt windows' B T' s w E Hdw' HB Hs Hw HE)
    as (enc' & Henc' & _ & Hge').
  exists windows, windows', enc, enc'. repeat split; try assumption.
  intros e. rewrite (Hge b t e Hb Ht), (Hge' b t' e Hb Ht').
  apply window_encoding_ext. intros m Hm.
  assert (m / w < s) by (apply Nat.Div0.div_lt_upper_bound; nia).
  assert (m mod w < w) by (apply Nat.mod_upper_bound; lia).
  rewrite Hgw, Hgw' by assumption.
  apply Hsame.
  - apply Nat.Div0.div_lt_upper_bound.
    pose proof (Nat.div_mod_eq m w). nia.
  - apply Nat.mod_upper_bound. lia.
Qed.

Lemma encodings_follow_the_window_witness :
  exists windows windows' enc enc',
    extract_input_windows (Tensor [1; 3; 1] (fun idx => INR (nth 1 idx 0))) 1 1 2
    = Ok windows /\
    extract_input_windows (Tensor [1; 2; 1] (fun idx => INR (1 + nth 1 idx 0))) 1 1 2
    = Ok windows' /\
    encode_input_windows example_runtime windows 1 1 2 1 = Ok enc /\
    encode_input_windows example_runtime windows' 1 1 2 1 = Ok enc' /\
    forall e, get enc' [0; 0; e] = get enc [0; 1; e].
Proof.
  apply (@encodings_follow_the_window R Scalar_R example_runtime
           (Tensor [1; 3; 1] (fun idx => INR (nth 1 idx 0)))
           (Tensor [1; 2; 1] (fun idx => INR (1 + nth 1 idx 0)))
           1 2 1 1 2 1 0 1 0); try reflexivity; try lia.
Defined.

(** ** Generation step by step against training *)

Section StepFacts.
Context {F : Type} {SF : Scalar F}.

Lemma fsum_trailing_zeros (n t : nat) (f : nat -> F) :
  fadd fzero fzero = fzero -> t <= n ->
  (forall k, t <= k < n -> f k = fzero) ->
  tf.fsum n f = tf.fsum t f.
Proof.
  intros H0 Hle Hz. unfold tf.fsum.
  replace n with (t + (n - t)) at 1 by lia.
  rewrite seq_app, map_app, fold_right_app. f_equal.
  assert (G : forall l, (forall y, In y l -> y = fzero) ->
                        fold_right fadd fzero l = fzero).
  { induction l as [|y l IH]; intros Hl; [reflexivity|].
    cbn. rewrite IH; [|intros y' Hy'; apply Hl; now right].
    rewrite (Hl y); [exact H0 | now left]. }
  apply G. intros y Hy. apply in_map_iff in Hy as (k & <- & Hk).
  apply in_seq in Hk. apply Hz. lia.
Qed.

Lemma attention_row_ext (e : nat) (s s' : nat -> F) (j : nat) :
  (forall k, k < e -> s k = s' k) ->
  attention_row e s j = attention_row e s' j.
Proof.
  intros H. unfold attention_row. destruct (Nat.ltb_spec j e); [|reflexivity].
  rewrite (H j) by assumption. f_equal. apply fsum_ext.
  intros k Hk. rewrite (H k Hk). reflexivity.
Qed.

End StepFacts.

(** X4: generation reproduces training step by step.  Take a batch of train
    or eval mode and a step [t] of it.  Feed generate mode with that one
    input step, with the [w - 1] padded steps before it as input buffer,
    with the labels before [t] and with the encodings before [t] as past
    encodings: the encoding and the attention feature of the fed step are
    those of step [t] of the batch.  The scalar type only has to satisfy
    [0 * 0 = 0], [0 * 1 = 0] and [0 + 0 = 0]. *)
Theorem generation_step_matches_training {F : Type} {SF : Scalar F}
        (rt : Runtime) (mode : string) (config : Config)
        (paths : option (list string)) (feeds : Feeds)
        (x : tensor F) (lbls lens : tensor Z) (B T s w E C t : nat) :
  fmul fzero fzero = fzero -> fmul fzero fone = fzero ->
  fadd fzero fzero = fzero ->
  mode = "train"%string \/ mode = "eval"%string ->
  batch_size (hparams config) = Z.of_nat B ->
  window_size (hparams config) = Z.of_nat w ->
  encoding_size (hparams config) = Z.of_nat E ->
  input_size (encoder_decoder config) = Z.of_nat s ->
  num_classes (encoder_decoder config) = Z.of_nat C ->
  dims x = [B; T; s] -> dims lbls = [B; T] ->
  0 < B -> 0 < s -> 1 <= w -> 0 < E -> t < T ->
  exists ftr,
    features_of_batch rt mode config paths feeds x lbls lens = Ok ftr /\
    forall fed : Feeds,
      dims (fed_inputs fed) = [B; 1; s] ->
      (forall b f, get (fed_inputs fed) [b; 0; f] = get x [b; t; f]) ->
      dims (fed_input_buffer fed) = [B; w - 1; s] ->
      (forall b j f, j < w - 1 ->
         get (fed_input_buffer fed) [b; j; f]
         = if t + j <? w - 1 then fzero else get x [b; t + j - (w - 1); f]) ->
      dims (fed_labels fed) = [B; t] ->
      (forall b j, j < t -> get (fed_labels fed) [b; j] = get lbls [b; j]) ->
      dims (fed_past_encodings fed) = [B; t; E] ->
      (forall b j e, b < B -> j < t -> e < E ->
         get (fed_past_encodings fed) [b; j; e] = get (encodings ftr) [b; j; e]) ->
      exists fg,
        (m <- mode_inputs rt "generate" config paths fed ;; features rt config m)
        = Ok fg /\
        forall b, b < B ->
          (forall e, get (encodings fg) [b; 0; e] = get (encodings ftr) [b; t; e]) /\
          (forall c, get (attention_inputs fg) [b; 0; c]
                     = get (attention_inputs ftr) [b; t; c]).
Proof.
  intros M0 M1 A0 Hm Hbs Hws Hes His Hnc Hd Hl HB Hs Hw HE Ht.
  (* the batch *)
  destruct (@features_values F SF rt config x
              (Tensor [B; w - 1; s] (fun _ => fzero))
              (Tensor [B; 0; E] (fun _ => fzero)) B T 0 s w E C
              Hbs Hws Hes His Hnc Hd eq_refl eq_refl HB Hs)
    as (enc & sim & Hde & Hge & Hds & Hgs & Hf); try lia.
  cbn [Nat.add] in Hds, Hf.
  assert (Htl : dims (getitem lbls [(None, None); (None, Some (-1)%Z)])
                = [B; T - 1]).
  { cbn. rewrite Hl. cbn. rewrite clamp_index_minus_one.
    f_equal; [lia | f_equal; lia]. }
  destruct (Hf lbls (Some lens) _ Htl)
    as (ftr & Hftr & Hetr & Hstr & _ & _ & _ & Hatr).
  exists ftr. split.
  { unfold features_of_batch.
    rewrite (@mode_inputs_train_ok F SF rt mode config paths feeds x lbls lens
               B s w E Hm Hbs Hws Hes His Hw).
    cbn [bind]. exact Hftr. }
  (* the fed step *)
  intros fed Hdx Hgx Hdb Hgb Hdl Hgl Hdp Hgp.
  rewrite (@mode_inputs_generate_ok F SF rt config paths fed B 1 t t s w E
             Hbs Hws Hes His Hw Hdx Hdb Hdl Hdp).
  cbn [bind].
  destruct (@features_values F SF rt config (fed_inputs fed)
              (fed_input_buffer fed) (fed_past_encodings fed) B 1 t s w E C
              Hbs Hws Hes His Hnc Hdx Hdb Hdp HB Hs)
    as (encg & simg & Hdeg & Hgeg & Hdsg & Hgsg & Hfg); try lia.
  cbn [Nat.sub] in Hdsg, Hfg. rewrite Nat.add_0_r in Hdsg, Hfg.
  destruct (Hfg (fed_labels fed) None (fed_labels fed) Hdl)
    as (fg & Hfgok & Heg & Hsg & _ & _ & _ & Hag).
  exists fg. split; [exact Hfgok|].
  intros b Hb.
  assert (Henc : forall e, get encg [b; 0; e] = get enc [b; t; e]).
  { intros e. rewrite (Hgeg b 0 e Hb) by lia. rewrite (Hge b t e Hb Ht).
    apply window_encoding_ext. intros m Hm'.
    assert (Hj : m / s < w) by (apply Nat.Div0.div_lt_upper_bound; nia).
    unfold padded_at. cbn [get Nat.add].
    destruct (Nat.ltb_spec (m / s) (w - 1)) as [Hlt|Hge'].
    - rewrite Hgb by exact Hlt.
      destruct (Nat.ltb_spec (t + m / s) (w - 1)); reflexivity.
    - replace (m / s - (w - 1)) with 0 by lia. rewrite Hgx.
      destruct (Nat.ltb_spec (t + m / s) (w - 1)); [lia|].
      f_equal. f_equal. f_equal. lia. }
  split.
  { intros e. rewrite Heg, Hetr. apply Henc. }
  intros c. rewrite Hag by lia. rewrite Hatr by exact Ht.
  assert (Hpg : clamp_index t (aligned_position 1 t 0) = t).
  { rewrite clamp_index_nonneg; unfold aligned_position; lia. }
  assert (Hpt : clamp_index (T - 1) (aligned_position T (T - 1) t) = t).
  { rewrite clamp_index_nonneg; unfold aligned_position; lia. }
  rewrite Hpg, Hpt.
  rewrite (@fsum_trailing_zeros F SF (T - 1) t) ; [| exact A0 | lia |].
  - apply fsum_ext. intros k Hk. f_equal.
    + apply attention_row_ext. intros k' Hk'.
      rewrite Hgsg, Hgs. apply fsum_ext. intros e He.
      rewrite Henc. f_equal.
      destruct (Nat.ltb_spec k' t); [|lia]. cbn [Nat.ltb Nat.leb].
      rewrite Nat.sub_0_r, <- Hetr. apply Hgp; assumption.
    + cbn [getitem get]. rewrite Hl.
      cbn [slice_index slice_begin fst Nat.add]. rewrite Hgl by exact Hk.
      reflexivity.
  - intros k Hk. unfold attention_row.
    destruct (Nat.ltb_spec k t); [lia|].
    destruct (_ =? _)%Z; assumption.
Qed.

Lemma generation_step_matches_training_witness :
  let x := Tensor [1; 2; 1] (fun idx => INR (nth 1 idx 0)) in
  let lbls := Tensor [1; 2] (fun idx => Z.of_nat (nth 1 idx 0)) in
  let lens := Tensor [1] (fun _ => 2%Z) in
  exists ftr,
    features_of_batch example_runtime "train" example_config None example_feeds
                      x lbls lens = Ok ftr /\
    forall fed : Feeds,
      dims (fed_inputs fed) = [1; 1; 1] ->
      (forall b f, get (fed_inputs fed) [b; 0; f] = get x [b; 1; f]) ->
      dims (fed_input_buffer fed) = [1; 2 - 1; 1] ->
      (forall b j f, j < 2 - 1 ->
         get (fed_input_buffer fed) [b; j; f]
         = if 1 + j <? 2 - 1 then fzero else get x [b; 1 + j - (2 - 1); f]) ->
      dims (fed_labels fed) = [1; 1] ->
      (forall b j, j < 1 -> get (fed_labels fed) [b; j] = get lbls [b; j]) ->
      dims (fed_past_encodings fed) = [1; 1; 1] ->
      (forall b j e, b < 1 -> j < 1 -> e < 1 ->
         get (fed_past_encodings fed) [b; j; e] = get (encodings ftr) [b; j; e]) ->
      exists fg,
        (m <- mode_inputs example_runtime "generate" example_config None fed ;;
         features example_runtime example_config m) = Ok fg /\
        forall b, b < 1 ->
          (forall e, get (encodings fg) [b; 0; e] = get (encodings ftr) [b; 1; e]) /\
          (forall c, get (attention_inputs fg) [b; 0; c]
                     = get (attention_inputs ftr) [b; 1; c]).
Proof.
  intros x lbls lens.
  apply (@generation_step_matches_training R Scalar_R example_runtime "train"
           example_config None example_feeds x lbls lens 1 2 1 2 1 2 1);
    try reflexivity; try lia.
  - cbn. lra.
  - cbn. lra.
  - cbn. lra.
  - left. reflexivity.
Defined.

(** ** The first and the last step *)

(** X5: in train and eval modes the first step of every sequence has no label
    to attend to: row [(b, 0)] of the attention feature is zero, and the
    input of the recurrent cell at step 0 is the raw input followed by
    [num_classes] zeros.  The scalar type only has to satisfy [0 * 0 = 0],
    [0 * 1 = 0] and [0 + 0 = 0]. *)
Theorem first_step_has_zero_attention {F : Type} {SF : Scalar F}
        (rt : Runtime) (mode : string) (config : Config)
        (paths : option (list string)) (feeds : Feeds)
        (x : tensor F) (lbls lens : tensor Z) (B T s w E C : nat) :
  fmul fzero fzero = fzero -> fmul fzero fone = fzero ->
  fadd fzero fzero = fzero ->
  mode = "train"%string \/ mode = "eval"%string ->
  batch_size (hparams config) = Z.of_nat B ->
  window_size (hparams config) = Z.of_nat w ->
  encoding_size (hparams config) = Z.of_nat E ->
  input_size (encoder_decoder config) = Z.of_nat s ->
  num_classes (encoder_decoder config) = Z.of_nat C ->
  dims x = [B; T; s] -> dims lbls = [B; T] ->
  0 < B -> 0 < s -> 1 <= w -> 0 < E -> 0 < T ->
  exists f,
    features_of_batch rt mode config paths feeds x lbls lens = Ok f /\
    dims (combined_inputs f) = [B; T; s + C] /\
    (forall b c, get (attention_inputs f) [b; 0; c] = fzero) /\
    (forall b k, get (combined_inputs f) [b; 0; k]
                 = if k <? s then get x [b; 0; k] else fzero).
Proof.
  intros M0 M1 A0 Hm Hbs Hws Hes His Hnc Hd Hl HB Hs Hw HE HT.
  destruct (@features_values F SF rt config x
              (Tensor [B; w - 1; s] (fun _ => fzero))
              (Tensor [B; 0; E] (fun _ => fzero)) B T 0 s w E C
              Hbs Hws Hes His Hnc Hd eq_refl eq_refl HB Hs)
    as (enc & sim & _ & _ & _ & _ & Hf); try lia.
  cbn [Nat.add] in Hf.
  assert (Htl : dims (getitem lbls [(None, None); (None, Some (-1)%Z)])
                = [B; T - 1]).
  { cbn. rewrite Hl. cbn. rewrite clamp_index_minus_one.
    f_equal; [lia | f_equal; lia]. }
  destruct (Hf lbls (Some lens) _ Htl)
    as (f & Hfok & _ & _ & _ & Hdc & Hgc & Ha).
  exists f. split.
  { unfold features_of_batch.
    rewrite (@mode_inputs_train_ok F SF rt mode config paths feeds x lbls lens
               B s w E Hm Hbs Hws Hes His Hw).
    cbn [bind]. exact Hfok. }
  split; [exact Hdc|].
  assert (Hz : forall b c, get (attention_inputs f) [b; 0; c] = fzero).
  { intros b c. rewrite Ha by exact HT. apply fsum_zero; [exact A0|].
    intros k _.
    assert (Hp : clamp_index (T - 1) (aligned_position T (T - 1) 0) = 0).
    { rewrite clamp_index_nonneg; unfold aligned_position; lia. }
    rewrite Hp. unfold attention_row. cbn [Nat.ltb Nat.leb].
    destruct (_ =? _)%Z; assumption. }
  split; [exact Hz|].
  intros b k. rewrite Hgc. destruct (k <? s); [reflexivity | apply Hz].
Qed.

Lemma first_step_has_zero_attention_witness :
  exists f,
    features_of_batch example_runtime "eval" example_config None example_feeds
                      (Tensor [1; 2; 1] (fun _ => 1%R))
                      (Tensor [1; 2] (fun _ => 1%Z)) (Tensor [1] (fun _ => 2%Z))
    = Ok f /\
    dims (combined_inputs f) = [1; 2; 1 + 2] /\
    (forall b c, get (attention_inputs f) [b; 0; c] = 0%R) /\
    (forall b k, get (combined_inputs f) [b; 0; k]
                 = if k <? 1 then 1%R else 0%R).
Proof.
  apply (@first_step_has_zero_attention R Scalar_R example_runtime "eval"
           example_config None example_feeds
           (Tensor [1; 2; 1] (fun _ => 1%R)) (Tensor [1; 2] (fun _ => 1%Z))
           (Tensor [1] (fun _ => 2%Z)) 1 2 1 2 1 2);
    try reflexivity; try lia.
  - cbn. lra.
  - cbn. lra.
  - cbn. lra.
  - right. reflexivity.
Defined.

(** X6: the final input step can attend to all labels (docstring, lines
    119-120): whatever the numbers of query and key steps, the weights of
    the last query step are the softmax of its whole row of similarities. *)
Theorem final_step_attends_to_all_labels {F : Type} {SF : Scalar F}
        (sim : tensor F) (B Q K b : nat) :
  dims sim = [B; Q; K] -> 0 < Q ->
  exists att,
    attention_weights sim = Ok att /\
    dims att = [B; Q; K] /\
    forall j, j < K ->
      get att [b; Q - 1; j]
      = fdiv (fexp (get sim [b; Q - 1; j]))
             (tf.fsum K (fun k => fexp (get sim [b; Q - 1; k]))).
Proof.
  intros Hd HQ.
  destruct (attention_weights_ok sim Hd HQ) as (att & Hatt & Hda & Hg).
  exists att. split; [exact Hatt|]. split; [exact Hda|].
  intros j Hj. rewrite Hg by lia.
  assert (Hp : clamp_index K (aligned_position Q K (Q - 1)) = K).
  { rewrite clamp_index_nonneg; unfold aligned_position; lia. }
  rewrite Hp. unfold attention_row.
  destruct (Nat.ltb_spec j K); [reflexivity | lia].
Qed.

Lemma final_step_attends_to_all_labels_witness :
  exists att,
    attention_weights (Tensor [1; 3; 2] (fun _ => 0%R)) = Ok att /\
    dims att = [1; 3; 2] /\
    forall j, j < 2 ->
      get att [0; 3 - 1; j] = (exp 0 / tf.fsum 2 (fun _ => exp 0))%R.
Proof.
  apply (@final_step_attends_to_all_labels R Scalar_R
           (Tensor [1; 3; 2] (fun _ => 0%R)) 1 3 2 0); [reflexivity | lia].
Defined.

(** ** The attention feature as a distribution over the classes *)

Lemma fsum_scal_R (n : nat) (a : R) (f : nat -> R) :
  tf.fsum n (fun k => (a * f k)%R) = (a * tf.fsum n f)%R.
Proof.
  induction n as [|n IH]; [cbn; lra|]. rewrite !fsum_S_R, IH. lra.
Qed.

Lemma fsum_swap_R (n m : nat) (f : nat -> nat -> R) :
  tf.fsum n (fun i => tf.fsum m (fun j => f i j))
  = tf.fsum m (fun j => tf.fsum n (fun i => f i j)).
Proof.
  induction n as [|n IH].
  - cbn. symmetry. apply fsum_zero_R. reflexivity.
  - rewrite fsum_S_R, IH, <- fsum_plus_R. apply fsum_ext. intros j _.
    rewrite fsum_S_R. reflexivity.
Qed.

Lemma fsum_one_hot_R (C : nat) (l : Z) :
  (0 <= l < Z.of_nat C)%Z ->
  tf.fsum C (fun c => if (l =? Z.of_nat c)%Z then 1%R else 0%R) = 1%R.
Proof.
  intros Hl. induction C as [|C IH]; [lia|]. rewrite fsum_S_R.
  destruct (Z.eqb_spec l (Z.of_nat C)) as [->|Hne].
  - rewrite fsum_zero_R; [lra|]. intros k Hk.
    destruct (Z.eqb_spec (Z.of_nat C) (Z.of_nat k)); [lia | reflexivity].
  - rewrite IH by lia. lra.
Qed.

Lemma attention_row_nonneg_R (e : nat) (s : nat -> R) (j : nat) :
  (0 <= attention_row e s j)%R.
Proof.
  unfold attention_row. destruct (Nat.ltb_spec j e); [|cbn; lra].
  cbn [fdiv fexp Scalar_R]. apply Rlt_le, Rdiv_lt_0_compat; [apply exp_pos|].
  apply fsum_pos_R; [lia | intros; apply exp_pos].
Qed.

(** X7: the attention feature of a query step with at least one valid key is
    a distribution over the classes: when the labels below its aligned
    position are class indices in [0, num_classes), the entries of its row
    are not negative and sum to 1 (float32 idealised as real numbers). *)
Theorem attention_feature_is_distribution (lbls : tensor Z) (sim : tensor R)
        (C : Z) (B Q K b i : nat) :
  dims sim = [B; Q; K] -> dims lbls = [B; K] -> (0 <= C)%Z -> i < Q ->
  (0 < aligned_position Q K i)%Z ->
  (forall k, (Z.of_nat k < aligned_position Q K i)%Z ->
             (0 <= get lbls [b; k] < C)%Z) ->
  exists feature,
    similarity_weighted_attention lbls sim C = Ok feature /\
    (forall c, (0 <= get feature [b; i; c])%R) /\
    tf.fsum (Z.to_nat C) (fun c => get feature [b; i; c]) = 1%R.
Proof.
  intros Hs Hl HC Hi Hp Hrange.
  destruct (@similarity_weighted_attention_ok R Scalar_R lbls sim C B Q K Hs Hl)
    as (feature & Hf & _ & Hg); [lia | exact HC |].
  exists feature. split; [exact Hf|].
  assert (He : clamp_index K (aligned_position Q K i)
               = Z.to_nat (aligned_position Q K i)).
  { apply clamp_index_nonneg. unfold aligned_position in *. lia. }
  set (e := Z.to_nat (aligned_position Q K i)) in *.
  set (a := attention_row e (fun k' => get sim [b; i; k'])).
  assert (Hfeat : forall c, get feature [b; i; c]
            = tf.fsum K (fun k =>
                (a k * (if (get lbls [b; k] =? Z.of_nat c)%Z then 1 else 0))%R)).
  { intros c. rewrite (Hg b i c Hi), He. reflexivity. }
  split.
  - intros c. rewrite Hfeat. apply fsum_nonneg_R. intros k.
    apply Rmult_le_pos; [apply attention_row_nonneg_R|].
    destruct (_ =? _)%Z; lra.
  - rewrite (@fsum_ext _ _ _ _ (fun c => tf.fsum K (fun k =>
               (a k * (if (get lbls [b; k] =? Z.of_nat c)%Z then 1 else 0))%R)))
      by (intros c _; apply Hfeat).
    rewrite fsum_swap_R.
    rewrite (@fsum_ext _ _ K _ a).
    + assert (HeK : e <= K) by (unfold e, aligned_position in *; lia).
      rewrite (@fsum_trailing_zeros R Scalar_R K e a); [| cbn; lra | exact HeK |].
      * apply softmax_mass_R. unfold e. lia.
      * intros k Hk. unfold a, attention_row.
        destruct (Nat.ltb_spec k e); [lia | reflexivity].
    + intros k Hk. rewrite fsum_scal_R.
      destruct (Nat.ltb_spec k e) as [Hlt|Hge].
      * rewrite fsum_one_hot_R; [lra|].
        pose proof (Hrange k ltac:(unfold e in Hlt; lia)). lia.
      * unfold a, attention_row.
        destruct (Nat.ltb_spec k e); [lia|]. cbn [fzero Scalar_R]. lra.
Qed.

Lemma attention_feature_is_distribution_witness :
  exists feature,
    similarity_weighted_attention (Tensor [1; 1] (fun _ => 1%Z))
      (Tensor [1; 2; 1] (fun _ => 0%R)) 3 = Ok feature /\
    (forall c, Rle 0 (get feature [0; 1; c])) /\
    tf.fsum (Z.to_nat 3) (fun c => get feature [0; 1; c]) = 1%R.
Proof.
  apply (@attention_feature_is_distribution (Tensor [1; 1] (fun _ => 1%Z))
           (Tensor [1; 2; 1] (fun _ => 0%R)) 3 1 2 1 0 1);
    try reflexivity; try lia.
  intros k _. cbn. lia.
Defined.

(** X8: a query step with exactly one valid key copies the label of that key:
    when its aligned position is 1, its attention feature is the one-hot
    vector of the first label (float32 idealised as real numbers).  In train
    and eval modes this is step 1. *)
Theorem single_key_copies_its_label (lbls : tensor Z) (sim : tensor R)
        (C : Z) (B Q K b i : nat) :
  dims sim = [B; Q; K] -> dims lbls = [B; K] -> (0 <= C)%Z -> i < Q ->
  aligned_position Q K i = 1%Z ->
  exists feature,
    similarity_weighted_attention lbls sim C = Ok feature /\
    forall c,
      get feature [b; i; c]
      = if Z.eqb (get lbls [b; 0]) (Z.of_nat c) then 1%R else 0%R.
Proof.
  intros Hs Hl HC Hi Hp.
  destruct (@similarity_weighted_attention_ok R Scalar_R lbls sim C B Q K Hs Hl)
    as (feature & Hf & _ & Hg); [lia | exact HC |].
  exists feature. split; [exact Hf|]. intros c. rewrite (Hg b i c Hi), Hp.
  assert (HK : 1 <= K) by (unfold aligned_position in Hp; lia).
  rewrite clamp_index_nonneg by lia. change (Z.to_nat 1) with 1.
  rewrite (@fsum_trailing_zeros R Scalar_R K 1); [| cbn; lra | exact HK |].
  - unfold tf.fsum, attention_row. cbn.
    pose proof (exp_pos (get sim [b; i; 0])).
    destruct (_ =? _)%Z; field; lra.
  - intros k Hk. unfold attention_row.
    destruct (Nat.ltb_spec k 1); [lia|]. cbn [fmul fzero Scalar_R]. lra.
Qed.

Lemma single_key_copies_its_label_witness :
  exists feature,
    similarity_weighted_attention (Tensor [1; 1] (fun _ => 1%Z))
      (Tensor [1; 2; 1] (fun _ => 0%R)) 3 = Ok feature /\
    forall c,
      get feature [0; 1; c] = if Z.eqb 1 (Z.of_nat c) then 1%R else 0%R.
Proof.
  apply (@single_key_copies_its_label (Tensor [1; 1] (fun _ => 1%Z))
           (Tensor [1; 2; 1] (fun _ => 0%R)) 3 1 2 1 0 1);
    try reflexivity; lia.
Defined.

(** ** The modes *)

(** X9: train and eval graphs have no placeholder: whatever is fed, the built
    graph is the same. *)
Theorem train_eval_ignore_feeds {F : Type} {SF : Scalar F} (rt : Runtime)
        (mode : string) (config : Config) (paths : option (list string))
        (feeds feeds' : Feeds) :
  mode = "train"%string \/ mode = "eval"%string ->
  build_graph rt mode config paths feeds = build_graph rt mode config paths feeds'.
Proof.
  intros Hm.
  assert (Hte : ((mode =? "train") || (mode =? "eval"))%string = true)
    by (destruct Hm as [-> | ->]; reflexivity).
  assert (Hg : (mode =? "generate")%string = false)
    by (destruct Hm as [-> | ->]; reflexivity).
  unfold build_graph. destruct (negb (py_in mode _)); [reflexivity|].
  f_equal. unfold graph_body.
  assert (Hmi : mode_inputs rt mode config paths feeds
                = mode_inputs rt mode config paths feeds').
  { unfold mode_inputs. rewrite Hte. reflexivity. }
  rewrite Hmi.
  destruct (mode_inputs rt mode config paths feeds') as [m|e]; [|reflexivity].
  cbn [bind].
  destruct (features rt config m) as [f|e]; [|reflexivity]. cbn [bind].
  assert (Hr : recurrent rt mode config feeds (lengths m) (combined_inputs f)
               = recurrent rt mode config feeds' (lengths m) (combined_inputs f)).
  { unfold recurrent. rewrite Hg. reflexivity. }
  rewrite Hr, Hte. reflexivity.
Qed.

Lemma train_eval_ignore_feeds_witness :
  build_graph example_runtime "eval" example_config None example_feeds
  = build_graph example_runtime "eval" example_config None (example_feeds_at 2).
Proof.
  apply (@train_eval_ignore_feeds R Scalar_R example_runtime "eval"
           example_config None example_feeds (example_feeds_at 2)).
  right. reflexivity.
Defined.

(** X10: eval mode runs the forward computation of train mode, dropout
    included (the keep probability is forced to 1.0 in generate mode only):
    when the dataset yields the same batch shuffled or not and the train
    graph is built, the eval graph is built too, with the same inputs,
    features, recurrent outputs and predictions, and without the train
    metrics. *)
Theorem eval_runs_the_training_forward_pass {F : Type} {SF : Scalar F}
        (rt : Runtime) (config : Config) (paths : option (list string))
        (feeds : Feeds) (ev : list event) (g : Graph) :
  get_padded_batch rt paths (batch_size (hparams config))
                   (input_size (encoder_decoder config)) true
  = get_padded_batch rt paths (batch_size (hparams config))
                     (input_size (encoder_decoder config)) false ->
  build_graph rt "train" config paths feeds = (ev, Ok g) ->
  exists g',
    build_graph rt "eval" config paths feeds = (ev, Ok g') /\
    graph_inputs g' = graph_inputs g /\
    graph_features g' = graph_features g /\
    graph_recurrent g' = graph_recurrent g /\
    graph_predictions g' = graph_predictions g /\
    graph_metrics g' = None /\
    (exists metrics, graph_metrics g = Some metrics).
Proof.
  intros Hb. unfold build_graph.
  change (negb (py_in "train" ["train"; "eval"; "generate"]%string)) with false.
  change (negb (py_in "eval" ["train"; "eval"; "generate"]%string)) with false.
  cbv iota. intros H. injection H as <- H. unfold graph_body in *.
  assert (Hmi : mode_inputs rt "eval" config paths feeds
                = mode_inputs rt "train" config paths feeds).
  { unfold mode_inputs.
    change (("eval" =? "train") || ("eval" =? "eval"))%string with true.
    change (("train" =? "train") || ("train" =? "eval"))%string with true.
    change ("eval" =? "train")%string with false.
    change ("train" =? "train")%string with true.
    cbv iota. rewrite Hb. reflexivity. }
  rewrite Hmi.
  destruct (mode_inputs rt "train" config paths feeds) as [m|e]; [|discriminate].
  cbn [bind] in *.
  destruct (features rt config m) as [f|e]; [|discriminate]. cbn [bind] in *.
  change (recurrent rt "eval" config feeds (lengths m) (combined_inputs f))
    with (recurrent rt "train" config feeds (lengths m) (combined_inputs f)).
  destruct (recurrent rt "train" config feeds (lengths m) (combined_inputs f))
    as [r|e]; [|discriminate].
  cbn [bind] in *.
  change (("eval" =? "train") || ("eval" =? "eval"))%string with true.
  change (("train" =? "train") || ("train" =? "eval"))%string with true in H.
  cbv iota in *.
  destruct (flatten_maybe_padded_sequences rt (labels m) (lengths m))
    as [lf|e]; [|discriminate].
  cbn [bind] in *.
  destruct (tf.nn.sparse_softmax_cross_entropy_with_logits lf (logits_flat r))
    as [sce|e]; [|discriminate].
  cbn [bind] in *.
  change ("eval" =? "train")%string with false.
  change ("train" =? "train")%string with true in H. cbv iota in *.
  destruct (train_metrics sce _) as [mt|e]; [|discriminate].
  cbn [bind] in H. injection H as <-.
  eexists. split; [reflexivity|]. cbn. repeat split; try reflexivity.
  exists mt. reflexivity.
Qed.

Lemma eval_runs_the_training_forward_pass_witness :
  exists g g',
    build_graph example_runtime "train" example_config None example_feeds
    = ([LoggingInfo "hparams = %s"; GraphCreated], Ok g) /\
    build_graph example_runtime "eval" example_config None example_feeds
    = ([LoggingInfo "hparams = %s"; GraphCreated], Ok g') /\
    graph_features g' = graph_features g /\
    graph_recurrent g' = graph_recurrent g /\
    graph_metrics g' = None.
Proof.
  destruct build_graph_train_example as (g & m & Hg & _ & _).
  destruct (@eval_runs_the_training_forward_pass R Scalar_R example_runtime
              example_config None example_feeds _ g eq_refl Hg)
    as (g' & Hg' & _ & Hf & Hr & _ & Hm & _).
  exists g, g'. repeat split; assumption.
Defined.

(** ** The metrics of train mode *)

Section MetricFacts.
Context {F : Type} {SF : Scalar F}.

Lemma train_metrics_values (sce : tensor F) (labels_flat : tensor Z)
      (logits_flat : tensor F) (no_event_label : Z) (N : nat) :
  dims labels_flat = [N] ->
  let p := predictions labels_flat logits_flat no_event_label in
  let c := fun n => if Z.eqb (get labels_flat [n]) (get (tf.argmax logits_flat) [n])
                    then fone else fzero in
  let e := fun n => if negb (Z.eqb (get labels_flat [n]) no_event_label)
                    then fone else fzero in
  let z := fun n => if Z.eqb (get labels_flat [n]) no_event_label
                    then fone else fzero in
  exists m,
    train_metrics sce p = Ok m /\
    item (accuracy m) = fdiv (tf.fsum N c) (tf.of_nat N) /\
    item (event_accuracy m)
    = fdiv (tf.fsum N (fun n => fmul (c n) (e n))) (tf.fsum N e) /\
    item (no_event_accuracy m)
    = fdiv (tf.fsum N (fun n => fmul (c n) (z n))) (tf.fsum N z).
Proof.
  intros Hd p c e z.
  unfold train_metrics, tf.multiply, tf.div, tf.broadcast2, rank.
  subst p. cbn [correct_predictions event_positions no_event_positions
                predictions dims tf.to_float tf.equal tf.not_equal].
  rewrite Nat.sub_diag. cbn [skipn]. rewrite shape_eqb_refl. cbn [bind].
  cbn [dims tf.reduce_sum scalar_tensor length Nat.sub skipn].
  rewrite shape_eqb_refl. cbn [bind].
  eexists. split; [reflexivity|].
  cbn [accuracy event_accuracy no_event_accuracy item get tf.reduce_mean
       tf.reduce_sum scalar_tensor dims tf.to_float tf.not_equal tf.equal].
  rewrite Hd. cbn [numel fold_right unravel skipn]. rewrite Nat.mul_1_r.
  repeat split; f_equal; apply fsum_ext; intros n _; rewrite Nat.div_1_r;
    reflexivity.
Qed.

End MetricFacts.

(** X11: the event accuracy has no guard against an empty class: when every
    flattened label is the no-event label, [event_accuracy] is the quotient
    [0 / 0] (a NaN in float32), and when none is, so is [no_event_accuracy].
    The scalar type only has to satisfy [0 * 0 = 0], [1 * 0 = 0] and
    [0 + 0 = 0]. *)
Theorem accuracy_of_an_absent_class {F : Type} {SF : Scalar F}
        (sce : tensor F) (labels_flat : tensor Z) (logits_flat : tensor F)
        (no_event_label : Z) (N : nat) :
  fmul fzero fzero = fzero -> fmul fone fzero = fzero ->
  fadd fzero fzero = fzero ->
  dims labels_flat = [N] ->
  exists m,
    train_metrics sce (predictions labels_flat logits_flat no_event_label) = Ok m /\
    ((forall n, n < N -> get labels_flat [n] = no_event_label) ->
     item (event_accuracy m) = fdiv fzero fzero) /\
    ((forall n, n < N -> get labels_flat [n] <> no_event_label) ->
     item (no_event_accuracy m) = fdiv fzero fzero).
Proof.
  intros M0 M1 A0 Hd.
  destruct (@train_metrics_values F SF sce labels_flat logits_flat
              no_event_label N Hd) as (m & Hm & _ & He & Hz).
  exists m. split; [exact Hm|]. split.
  - intros Hall. rewrite He. f_equal; apply fsum_zero; try exact A0;
      intros n Hn; rewrite (Hall n Hn), Z.eqb_refl; cbn [negb];
      [destruct (_ =? _)%Z; assumption | reflexivity].
  - intros Hnone. rewrite Hz. f_equal; apply fsum_zero; try exact A0;
      intros n Hn;
      (destruct (Z.eqb_spec (get labels_flat [n]) no_event_label) as [Heq|_];
       [exfalso; exact (Hnone n Hn Heq)|]);
      [destruct (_ =? _)%Z; assumption | reflexivity].
Qed.

Lemma accuracy_of_an_absent_class_witness :
  exists m,
    train_metrics (Tensor [2] (fun _ => 0%R))
                  (predictions (Tensor [2] (fun _ => 0%Z))
                               (Tensor [2; 2] (fun _ => 0%R)) 0) = Ok m /\
    ((forall n, n < 2 -> get (Tensor [2] (fun _ => 0%Z)) [n] = 0%Z) ->
     item (event_accuracy m) = (0 / 0)%R) /\
    ((forall n, n < 2 -> get (Tensor [2] (fun _ => 0%Z)) [n] <> 0%Z) ->
     item (no_event_accuracy m) = (0 / 0)%R).
Proof.
  apply (@accuracy_of_an_absent_class R Scalar_R (Tensor [2] (fun _ => 0%R))
           (Tensor [2] (fun _ => 0%Z)) (Tensor [2; 2] (fun _ => 0%R)) 0 2).
  - cbn. lra.
  - cbn. lra.
  - cbn. lra.
  - reflexivity.
Defined.

Lemma fsum_le_R (n : nat) (f g : nat -> R) :
  (forall k, (f k <= g k)%R) -> (tf.fsum n f <= tf.fsum n g)%R.
Proof.
  intros H. induction n as [|n IH]; [cbn; lra|].
  rewrite !fsum_S_R. specialize (H n). lra.
Qed.

Lemma unit_quotient_R (a b : R) : (0 <= a <= b)%R -> (0 < b)%R -> (0 <= a / b <= 1)%R.
Proof.
  intros [Ha Hab] Hb. split.
  - apply Rmult_le_pos; [exact Ha|]. apply Rlt_le, Rinv_0_lt_compat, Hb.
  - apply (Rmult_le_reg_r b); [exact Hb|]. unfold Rdiv.
    rewrite Rmult_assoc, Rinv_l by lra. lra.
Qed.

(** X12: with at least one event position and one no-event position among the
    flattened labels, the accuracy, the event accuracy and the no-event
    accuracy of train mode all lie between 0 and 1 (float32 idealised as
    real numbers). *)
Theorem accuracies_in_unit_interval (labels_flat : tensor Z)
        (logits_flat softmax_cross_entropy : tensor R)
        (no_event_label : Z) (N : nat) :
  dims labels_flat = [N] ->
  (exists n, n < N /\ get labels_flat [n] <> no_event_label) ->
  (exists n, n < N /\ get labels_flat [n] = no_event_label) ->
  exists m,
    train_metrics softmax_cross_entropy
                  (predictions labels_flat logits_flat no_event_label) = Ok m /\
    (0 <= item (accuracy m) <= 1)%R /\
    (0 <= item (event_accuracy m) <= 1)%R /\
    (0 <= item (no_event_accuracy m) <= 1)%R.
Proof.
  intros Hd (ne & Hne & Hev) (nz & Hnz & Hno).
  destruct (@train_metrics_values R Scalar_R softmax_cross_entropy labels_flat
              logits_flat no_event_label N Hd) as (m & Hm & Ha & He & Hz).
  exists m. split; [exact Hm|]. rewrite Ha, He, Hz. cbn [fdiv fmul fone fzero Scalar_R].
  split; [|split]; apply unit_quotient_R.
  - split.
    + apply fsum_nonneg_R. intros k. destruct (_ =? _)%Z; lra.
    + rewrite of_nat_fsum_R. apply fsum_le_R. intros k.
      destruct (_ =? _)%Z; lra.
  - rewrite of_nat_fsum_R. apply fsum_pos_R; [lia | intros; lra].
  - split.
    + apply fsum_nonneg_R. intros k.
      destruct (_ =? _)%Z, (negb _); lra.
    + apply fsum_le_R. intros k. destruct (_ =? _)%Z, (negb _); lra.
  - apply fsum_pos_exists_R.
    + intros k. destruct (negb _); lra.
    + exists ne. split; [exact Hne|].
      destruct (Z.eqb_spec (get labels_flat [ne]) no_event_label);
        [contradiction | cbn; lra].
  - split.
    + apply fsum_nonneg_R. intros k.
      destruct (_ =? get _ _)%Z, (_ =? no_event_label)%Z; lra.
    + apply fsum_le_R. intros k.
      destruct (_ =? get _ _)%Z, (_ =? no_event_label)%Z; lra.
  - apply fsum_pos_exists_R.
    + intros k. destruct (_ =? _)%Z; lra.
    + exists nz. split; [exact Hnz|]. rewrite Hno, Z.eqb_refl. lra.
Qed.

Lemma accuracies_in_unit_interval_witness :
  exists m,
    train_metrics (Tensor [2] (fun _ => 0%R))
                  (predictions (Tensor [2] (fun idx => Z.of_nat (hd 0 idx)))
                               (Tensor [2; 2] (fun _ => 0%R)) 0) = Ok m /\
    (0 <= item (accuracy m) <= 1)%R /\
    (0 <= item (event_accuracy m) <= 1)%R /\
    (0 <= item (no_event_accuracy m) <= 1)%R.
Proof.
  apply (@accuracies_in_unit_interval
           (Tensor [2] (fun idx => Z.of_nat (hd 0 idx)))
           (Tensor [2; 2] (fun _ => 0%R)) (Tensor [2] (fun _ => 0%R)) 0 2).
  - reflexivity.
  - exists 1. split; [lia | discriminate].
  - exists 0. split; [lia | reflexivity].
Defined.

(** ** The output of generate mode *)

Lemma generate_softmax_values {F : Type} {SF : Scalar F}
      (logits temperature : tensor F) (B S C : nat) :
  dims logits = [B * S; C] -> 0 < B -> 0 < C ->
  exists sm,
    generate_softmax logits temperature (Z.of_nat B) (Z.of_nat C) = Ok sm /\
    dims sm = [B; S; C] /\
    forall b t c, b < B -> t < S -> c < C ->
      get sm [b; t; c]
      = fdiv (fexp (fdiv (get logits [b * S + t; c]) (item temperature)))
             (tf.fsum C (fun k =>
                fexp (fdiv (get logits [b * S + t; k]) (item temperature)))).
Proof.
  intros Hd HB HC. unfold generate_softmax, tf.fill. cbn [existsb].
  destruct (Z.ltb_spec (Z.of_nat C) 0); [lia|]. cbn [orb bind map].
  unfold tf.div, tf.broadcast2, rank. cbn [dims]. rewrite Hd, Nat2Z.id.
  cbn [length Nat.sub skipn]. rewrite shape_eqb_refl. cbn [bind].
  unfold tf.reshape. cbn [dims tf.nn.softmax].
  pose proof (@infer_shape_wildcard (numel [B * S; C]) S [B] [C]) as Hi.
  cbn [map app] in Hi. rewrite Hi; clear Hi.
  - eexists. split; [reflexivity|]. split; [reflexivity|].
    intros b t c Hb Ht Hc. cbn [get].
    replace (ravel [B; S; C] [b; t; c]) with (ravel [B * S; C] [b * S + t; c])
      by (cbn; ring).
    rewrite unravel_ravel by (cbn; repeat split; try lia; nia).
    cbn [skipn removelast app last]. reflexivity.
  - cbn. lia.
  - cbn. lia.
  - cbn. ring.
Qed.

(** X13: for every temperature other than 0, negative ones included, each row
    of the output of generate mode is a distribution over the classes: its
    entries are positive and sum to 1 (float32 idealised as real numbers). *)
Theorem generate_softmax_is_distribution (logits temperature : tensor R)
        (B S C b t : nat) :
  dims logits = [B * S; C] -> 0 < B -> 0 < C -> b < B -> t < S ->
  item temperature <> 0%R ->
  exists sm,
    generate_softmax logits temperature (Z.of_nat B) (Z.of_nat C) = Ok sm /\
    (forall c, c < C -> (0 < get sm [b; t; c])%R) /\
    tf.fsum C (fun c => get sm [b; t; c]) = 1%R.
Proof.
  intros Hd HB HC Hb Ht Htemp.
  destruct (@generate_softmax_values R Scalar_R logits temperature B S C Hd HB HC)
    as (sm & Hsm & _ & Hg).
  exists sm. split; [exact Hsm|].
  set (x := fun k => exp (get logits [b * S + t; k] / item temperature)).
  assert (Hpos : (0 < tf.fsum C x)%R)
    by (apply fsum_pos_R; [exact HC | intros; apply exp_pos]).
  split.
  - intros c Hc. rewrite (Hg b t c Hb Ht Hc). cbn [fdiv fexp Scalar_R].
    apply Rdiv_lt_0_compat; [apply exp_pos | exact Hpos].
  - rewrite (@fsum_ext _ _ C _ (fun c => (x c / tf.fsum C x)%R))
      by (intros c Hc; apply (Hg b t c Hb Ht Hc)).
    rewrite fsum_div_R. apply Rdiv_diag. lra.
Qed.

Lemma generate_softmax_is_distribution_witness :
  exists sm,
    generate_softmax (Tensor [1 * 1; 2] (fun idx => INR (nth 1 idx 0)))
                     (scalar_tensor (-1)%R) 1 2 = Ok sm /\
    (forall c, c < 2 -> (0 < get sm [0%nat; 0%nat; c])%R) /\
    tf.fsum 2 (fun c => get sm [0; 0; c]) = 1%R.
Proof.
  apply (@generate_softmax_is_distribution
           (Tensor [1 * 1; 2] (fun idx => INR (nth 1 idx 0)))
           (scalar_tensor (-1)%R) 1 1 2 0 0); try reflexivity; try lia.
  cbn. lra.
Defined.

(** ** Shapes that do not fit *)



(** X15: [extract_input_windows] uses its [batch_size] argument only in the
    final reshape: called with [batch_size = 1] on a batch of [B] sequences
    it raises no error and returns the [B * T] windows of all the sequences
    in one row, window [i] of sequence [b] at position [b * T + i]. *)
Theorem extract_input_windows_batch_of_one {F : Type} (inputs : tensor F)
        (B T s w : nat) :
  dims inputs = [B; w - 1 + T; s] -> 0 < s -> 0 < w ->
  exists windows,
    extract_input_windows inputs 1 (Z.of_nat s) (Z.of_nat w) = Ok windows /\
    dims windows = [1; B * T; s; w] /\
    forall b i f k, b < B -> i < T -> f < s -> k < w ->
      get windows [0; b * T + i; f; k]
      = get inputs [b; i + (f * w + k) / s; (f * w + k) mod s].
Proof.
  intros Hd Hs Hw.
  unfold extract_input_windows, tf.expand_dims, rank. rewrite Hd.
  change (norm_axis (S (length [B; w - 1 + T; s])) (-1)) with (Some 3).
  cbn [bind firstn skipn app]. unfold tf.extract_image_patches. cbn [dims].
  destruct (Z.ltb_spec (Z.of_nat w) 1); [lia|].
  destruct (Z.ltb_spec (Z.of_nat s) 1); [lia|]. cbn [orb].
  rewrite !Nat2Z.id.
  destruct (Nat.ltb_spec (w - 1 + T + 1) w); [lia|].
  destruct (Nat.ltb_spec (s + 1) s); [lia|]. cbn [orb bind].
  unfold tf.reshape. cbn [dims].
  pose proof (@infer_shape_wildcard
                (numel [B; w - 1 + T + 1 - w; s + 1 - s; w * s * 1]) (B * T)
                [1] [s; w]) as Hi.
  cbn [map app] in Hi. change (Z.of_nat 1) with 1%Z in Hi.
  rewrite Hi; clear Hi.
  - eexists. split; [reflexivity|]. split; [reflexivity|].
    intros b i f k Hb Hi Hf Hk. cbn [get].
    replace (ravel [1; B * T; s; w] [0; b * T + i; f; k])
      with (ravel [B; w - 1 + T + 1 - w; s + 1 - s; w * s * 1]
                  [b; i; 0; f * w + k]).
    + rewrite unravel_ravel.
      * cbn [firstn skipn app]. rewrite Nat.mul_1_r, Nat.div_1_r.
        rewrite Nat.add_0_l. reflexivity.
      * cbn. repeat split; try lia. nia.
    + cbn. replace (w - 1 + T + 1 - w) with T by lia.
      replace (s + 1 - s) with 1 by lia. ring.
  - cbn. lia.
  - cbn. nia.
  - cbn. replace (w - 1 + T + 1 - w) with T by lia.
    replace (s + 1 - s) with 1 by lia. ring.
Qed.

Lemma extract_input_windows_batch_of_one_witness :
  exists windows,
    extract_input_windows (Tensor [2; 2; 1] (fun idx => INR (ravel [2; 2; 1] idx)))
                          1 1 2 = Ok windows /\
    dims windows = [1; 2 * 1; 1; 2] /\
    forall b i f k, b < 2 -> i < 1 -> f < 1 -> k < 2 ->
      get windows [0; b * 1 + i; f; k]
      = INR (ravel [2; 2; 1] [b; i + (f * 2 + k) / 1; (f * 2 + k) mod 1]).
Proof.
  apply (@extract_input_windows_batch_of_one R
           (Tensor [2; 2; 1] (fun idx => INR (ravel [2; 2; 1] idx))) 2 1 1 2);
    [reflexivity | lia | lia].
Defined.

(** ** Similarities in train and eval modes *)

Lemma window_encoding_nonneg_R (weights biases : list nat -> R) (n : nat)
      (row : nat -> R) (e : nat) :
  (0 <= window_encoding weights biases n row e)%R.
Proof.
  unfold window_encoding, tf.nn.relu. cbn [fltb fzero Scalar_R]. unfold Rltb.
  destruct (Rlt_dec 0 _); lra.
Qed.

(** X16: in train and eval modes every encoding is the output of a relu and
    there is no past encoding, so no self-similarity is negative, and the
    self-similarity of steps [i] and [j] is that of steps [j] and [i]
    (float32 idealised as real numbers). *)
Theorem train_similarities_nonneg_symmetric (rt : Runtime) (mode : string)
        (config : Config) (paths : option (list string)) (feeds : Feeds)
        (x : tensor R) (lbls lens : tensor Z) (B T s w E C : nat) :
  mode = "train"%string \/ mode = "eval"%string ->
  batch_size (hparams config) = Z.of_nat B ->
  window_size (hparams config) = Z.of_nat w ->
  encoding_size (hparams config) = Z.of_nat E ->
  input_size (encoder_decoder config) = Z.of_nat s ->
  num_classes (encoder_decoder config) = Z.of_nat C ->
  dims x = [B; T; s] -> dims lbls = [B; T] ->
  0 < B -> 0 < s -> 1 <= w -> 0 < E -> 0 < T ->
  exists f,
    features_of_batch rt mode config paths feeds x lbls lens = Ok f /\
    dims (self_similarity f) = [B; T; T - 1] /\
    (forall b t e, b < B -> t < T -> (0 <= get (encodings f) [b; t; e])%R) /\
    (forall b i j, b < B -> i < T -> j < T - 1 ->
       (0 <= get (self_similarity f) [b; i; j])%R) /\
    (forall b i j, i < T - 1 -> j < T - 1 ->
       get (self_similarity f) [b; i; j] = get (self_similarity f) [b; j; i]).
Proof.
  intros Hm Hbs Hws Hes His Hnc Hd Hl HB Hs Hw HE HT.
  destruct (@features_values R Scalar_R rt config x
              (Tensor [B; w - 1; s] (fun _ => fzero))
              (Tensor [B; 0; E] (fun _ => fzero)) B T 0 s w E C
              Hbs Hws Hes His Hnc Hd eq_refl eq_refl HB Hs)
    as (enc & sim & _ & Hge & Hds & Hgs & Hf); try lia.
  cbn [Nat.add] in Hds, Hf.
  assert (Htl : dims (getitem lbls [(None, None); (None, Some (-1)%Z)])
                = [B; T - 1]).
  { cbn. rewrite Hl. cbn. rewrite clamp_index_minus_one.
    f_equal; [lia | f_equal; lia]. }
  destruct (Hf lbls (Some lens) _ Htl) as (f & Hfok & He & Hsf & _).
  exists f. split.
  { unfold features_of_batch.
    rewrite (@mode_inputs_train_ok R Scalar_R rt mode config paths feeds x lbls
               lens B s w E Hm Hbs Hws Hes His Hw).
    cbn [bind]. exact Hfok. }
  rewrite He, Hsf. split; [exact Hds|].
  assert (Hnn : forall b t e, b < B -> t < T -> (0 <= get enc [b; t; e])%R).
  { intros b t e Hb Ht. rewrite (Hge b t e Hb Ht).
    apply window_encoding_nonneg_R. }
  split; [exact Hnn|]. split.
  - intros b i j Hb Hi Hj. rewrite Hgs. apply fsum_nonneg_R. intros e.
    cbn [Nat.ltb Nat.leb fmul Scalar_R]. rewrite Nat.sub_0_r.
    apply Rmult_le_pos; apply Hnn; lia.
  - intros b i j Hi Hj. rewrite !Hgs. apply fsum_ext. intros e _.
    cbn [Nat.ltb Nat.leb fmul Scalar_R]. rewrite !Nat.sub_0_r. apply Rmult_comm.
Qed.

Lemma train_similarities_nonneg_symmetric_witness :
  exists f,
    features_of_batch example_runtime "train" example_config None example_feeds
                      (Tensor [1; 2; 1] (fun _ => 1%R))
                      (Tensor [1; 2] (fun _ => 1%Z)) (Tensor [1] (fun _ => 2%Z))
    = Ok f /\
    dims (self_similarity f) = [1; 2; 2 - 1] /\
    (forall b t e, b < 1 -> t < 2 -> Rle 0 (get (encodings f) [b; t; e])) /\
    (forall b i j, b < 1 -> i < 2 -> j < 2 - 1 ->
       Rle 0 (get (self_similarity f) [b; i; j])) /\
    (forall b i j, i < 2 - 1 -> j < 2 - 1 ->
       get (self_similarity f) [b; i; j] = get (self_similarity f) [b; j; i]).
Proof.
  apply (@train_similarities_nonneg_symmetric example_runtime "train"
           example_config None example_feeds
           (Tensor [1; 2; 1] (fun _ => 1%R)) (Tensor [1; 2] (fun _ => 1%Z))
           (Tensor [1] (fun _ => 2%Z)) 1 2 1 2 1 2);
    try reflexivity; try lia.
  left. reflexivity.
Defined.

(** ** Configurations [build_graph] does not check *)

(** X17: [build_graph] only checks the mode.  With a valid mode and a window
    size [<= 0] the call logs, creates the graph and then fails inside a
    TensorFlow op: in train and eval modes (once the dataset has yielded a
    batch) in the [tf.zeros] of the input buffer, in generate mode in a
    placeholder. *)
Theorem build_graph_nonpositive_window {F : Type} {SF : Scalar F}
        (rt : Runtime) (mode : string) (config : Config)
        (paths : option (list string)) (feeds : Feeds) :
  (window_size (hparams config) <= 0)%Z ->
  mode = "generate"%string \/
  ((mode = "train"%string \/ mode = "eval"%string) /\
   exists batch,
     get_padded_batch rt paths (batch_size (hparams config))
                      (input_size (encoder_decoder config))
                      (mode =? "train")%string = Ok batch) ->
  exists op,
    build_graph rt mode config paths feeds
    = ([LoggingInfo "hparams = %s"; GraphCreated], Raise (TFError op)).
Proof.
  intros Hw [-> | [Hm ([[x l] n] & Hb)]].
  - unfold build_graph.
    change (negb (py_in "generate" ["train"; "eval"; "generate"]%string))
      with false.
    cbv iota. unfold graph_body, mode_inputs.
    change (("generate" =? "train") || ("generate" =? "eval"))%string with false.
    change ("generate" =? "generate")%string with true. cbv iota.
    destruct (tf.placeholder (fed_inputs feeds) _) as [i|e] eqn:Ei.
    + cbn [bind]. unfold tf.placeholder at 1.
      assert (Hno : (length (dims (fed_input_buffer feeds)) =? 3)
                    && forallb
                         (fun dz : nat * option Z =>
                            match snd dz with
                            | Some z => (Z.of_nat (fst dz) =? z)%Z
                            | None => true
                            end)
                         (combine (dims (fed_input_buffer feeds))
                            [Some (batch_size (hparams config));
                             Some (window_size (hparams config) - 1)%Z;
                             Some (input_size (encoder_decoder config))])
                    = false).
      { destruct (dims (fed_input_buffer feeds)) as [|a [|b [|c [|d l]]]];
          try reflexivity.
        cbn [length Nat.eqb combine forallb fst snd andb].
        destruct (Z.eqb_spec (Z.of_nat b) (window_size (hparams config) - 1));
          [lia|].
        rewrite andb_false_r. reflexivity. }
      cbn [length]. rewrite Hno. cbn [bind]. eexists. reflexivity.
    + unfold tf.placeholder in Ei.
      destruct (_ && _) in Ei; [discriminate|]. injection Ei as <-.
      cbn [bind]. eexists. reflexivity.
  - unfold build_graph.
    assert (Hin : negb (py_in mode ["train"; "eval"; "generate"]%string) = false)
      by (destruct Hm as [-> | ->]; reflexivity).
    assert (Hte : ((mode =? "train") || (mode =? "eval"))%string = true)
      by (destruct Hm as [-> | ->]; reflexivity).
    rewrite Hin. unfold graph_body, mode_inputs. rewrite Hte, Hb.
    cbn [bind]. unfold tf.zeros at 1. cbn [existsb].
    destruct (Z.ltb_spec (window_size (hparams config) - 1) 0); [|lia].
    rewrite orb_true_r. cbn [orb bind]. eexists. reflexivity.
Qed.

Lemma build_graph_nonpositive_window_witness :
  exists op,
    build_graph example_runtime "train"
      {| hparams :=
           {| batch_size := 1; window_size := 0; encoding_size := 1;
              rnn_layer_sizes := [2%Z]; dropout_keep_prob := 1%R;
              attn_length := None; learning_rate := 0%R; clip_norm := 0%R |};
         encoder_decoder := encoder_decoder example_config |}
      None example_feeds
    = ([LoggingInfo "hparams = %s"; GraphCreated], Raise (TFError op)).
Proof.
  apply (@build_graph_nonpositive_window R Scalar_R example_runtime "train").
  - cbn. lia.
  - right. split; [left; reflexivity|]. eexists. reflexivity.
Defined.

(** ** Dropout outside generate mode *)

Lemma DropoutWrapper_no_dropout {F : Type} {SF : Scalar F} (cell : RNNCell F)
      (keep : F) (u u' : nat -> list nat -> F) :
  fltb keep fone = false ->
  tf.contrib.rnn.DropoutWrapper cell keep u
  = tf.contrib.rnn.DropoutWrapper cell keep u'.
Proof.
  intros H. unfold tf.contrib.rnn.DropoutWrapper. rewrite H. reflexivity.
Qed.

(** X18: in train and eval modes the draws of the dropout ops matter only
    through the configured keep probability: when it is not below 1, the
    built graph is the same for any two sources of draws. *)
Theorem no_dropout_at_keep_probability_one {F : Type} {SF : Scalar F}
        (rt : Runtime) (u : nat -> nat -> list nat -> F) (mode : string)
        (config : Config) (paths : option (list string)) (feeds : Feeds) :
  mode = "train"%string \/ mode = "eval"%string ->
  fltb (dropout_keep_prob (hparams config)) fone = false ->
  build_graph (with_draws rt u (get_padded_batch rt)) mode config paths feeds
  = build_graph rt mode config paths feeds.
Proof.
  intros Hm Hk.
  assert (Hg : (mode =? "generate")%string = false)
    by (destruct Hm as [-> | ->]; reflexivity).
  set (rt' := with_draws rt u (get_padded_batch rt)).
  assert (Hcell : forall sizes a,
            make_rnn_cell rt' sizes (dropout_keep_prob (hparams config)) a
                          (BasicLSTMCell rt)
            = make_rnn_cell rt sizes (dropout_keep_prob (hparams config)) a
                            (BasicLSTMCell rt)).
  { intros sizes a. unfold make_rnn_cell. f_equal.
    apply fold_left_ext_eq. intros cells num_units. f_equal. f_equal.
    apply DropoutWrapper_no_dropout. exact Hk. }
  assert (Hrec : forall lens ci,
            recurrent rt' mode config feeds lens ci
            = recurrent rt mode config feeds lens ci).
  { intros lens ci. unfold recurrent. rewrite Hg.
    change (BasicLSTMCell rt') with (BasicLSTMCell rt).
    rewrite Hcell. reflexivity. }
  unfold build_graph. destruct (negb (py_in mode _)); [reflexivity|].
  f_equal. unfold graph_body.
  change (mode_inputs rt' mode config paths feeds)
    with (mode_inputs rt mode config paths feeds).
  destruct (mode_inputs rt mode config paths feeds) as [m|e]; [|reflexivity].
  cbn [bind].
  change (features rt' config m) with (features rt config m).
  destruct (features rt config m) as [f|e]; [|reflexivity].
  cbn [bind]. rewrite Hrec. reflexivity.
Qed.

Lemma no_dropout_at_keep_probability_one_witness :
  let config :=
    {| hparams :=
         {| batch_size := 1; window_size := 2; encoding_size := 1;
            rnn_layer_sizes := [2%Z]; dropout_keep_prob := 1%R;
            attn_length := None; learning_rate := 0%R; clip_norm := 0%R |};
       encoder_decoder := encoder_decoder example_config |} in
  build_graph (with_draws example_runtime (fun _ _ _ => (1 / 2)%R)
                          (get_padded_batch example_runtime))
              "train" config None example_feeds
  = build_graph example_runtime "train" config None example_feeds.
Proof.
  intros config.
  apply (@no_dropout_at_keep_probability_one R Scalar_R example_runtime
           (fun _ _ _ => (1 / 2)%R) "train" config None example_feeds).
  - left. reflexivity.
  - apply Rltb_irrefl.
Defined.
